(** * TradePulse: trade execution, valuation and metrics

    A shallow embedding of the trading core of the TradePulse backend
    ([backend/app/trading/services.py], [backend/app/portfolio/services.py],
    [backend/app/social/competition_trading_service.py]) together with the
    properties its specification states about it.

    Amounts are Python [decimal.Decimal] values computed in the default
    context (28 significant digits, ROUND_HALF_EVEN); the binary floats of
    the metrics and of the competition service are IEEE binary64 values.
    Database tables are lists of rows in insertion order; what the database
    engine does to a value when it stores it in a [Numeric(p, s)] column is
    outside the embedding, which follows the objects of one session. *)

From Stdlib Require Import ZArith QArith Qpower Qround Lia Lqa Bool.
From Stdlib Require Import Ascii String Floats.
From stdpp Require Import base list strings.

Local Open Scope Z_scope.

(** ** Python's [decimal.Decimal], default context *)

Module Dec.

(** A finite decimal: [coef * 10 ^ expo].  The sign is carried by the
    coefficient; NaN, infinities and the sign of zero are not
    represented, nor is the context's exponent range (Emax = 999999). *)
Record t : Set := mk { coef : Z; expo : Z }.

(** [getcontext().prec] *)
Definition prec : Z := 28.

(** [Decimal(str(n))] for an [int] [n]. *)
Definition of_Z (n : Z) : t := mk n 0.

Definition zero : t := mk 0 0.

Fixpoint ndigits_aux (fuel : nat) (n : Z) : Z :=
  match fuel with
  | O => 1
  | S fuel' => if n <? 10 then 1 else 1 + ndigits_aux fuel' (n / 10)
  end.

(** [len(str(n))] for [n >= 0]. *)
Definition ndigits (n : Z) : Z := ndigits_aux (Z.to_nat (Z.log2 n)) n.

(** [n / d] rounded to the nearest integer, ties to even ([0 <= n], [0 < d]). *)
Definition round_half_even (n d : Z) : Z :=
  let q := n / d in
  let r := n mod d in
  if 2 * r <? d then q
  else if 2 * r =? d then (if Z.even q then q else q + 1)
  else q + 1.

(** [Decimal._fix]: round to the context precision. *)
Definition fix_ (d : t) : t :=
  let a := Z.abs (coef d) in
  let n := ndigits a in
  if (a =? 0) || (n <=? prec) then d
  else
    let drop := n - prec in
    let q := round_half_even a (10 ^ drop) in
    if q =? 10 ^ prec
    then mk (Z.sgn (coef d) * 10 ^ (prec - 1)) (expo d + drop + 1)
    else mk (Z.sgn (coef d) * q) (expo d + drop).

(** The operations before rounding: every finite decimal sum, difference
    and product is again a finite decimal. *)
Definition neg (a : t) : t := mk (- coef a) (expo a).

Definition mul_exact (a b : t) : t := mk (coef a * coef b) (expo a + expo b).

Definition add_exact (a b : t) : t :=
  let e := Z.min (expo a) (expo b) in
  mk (coef a * 10 ^ (expo a - e) + coef b * 10 ^ (expo b - e)) e.

Definition sub_exact (a b : t) : t := add_exact a (neg b).

(** [a * b], [a + b], [a - b] in the context. *)
Definition mul (a b : t) : t := fix_ (mul_exact a b).
Definition add (a b : t) : t := fix_ (add_exact a b).
Definition sub (a b : t) : t := fix_ (sub_exact a b).

(** Comparison is by numerical value. *)
Definition compare (a b : t) : comparison :=
  let e := Z.min (expo a) (expo b) in
  Z.compare (coef a * 10 ^ (expo a - e)) (coef b * 10 ^ (expo b - e)).

Definition ltb (a b : t) : bool :=
  match compare a b with Lt => true | _ => false end.

Definition gtb (a b : t) : bool := ltb b a.

Definition is_zero (a : t) : bool := coef a =? 0.

Fixpoint strip_zeros (fuel : nat) (c e : Z) : Z * Z :=
  match fuel with
  | O => (c, e)
  | S fuel' => if c mod 10 =? 0 then strip_zeros fuel' (c / 10) (e + 1) else (c, e)
  end.

(** [a / b] ([Decimal.__truediv__]); [None] when the context traps
    (division by zero). *)
Definition div (a b : t) : option t :=
  if is_zero b then None
  else if is_zero a then Some (fix_ (mk 0 (expo a - expo b)))
  else
    let sign := Z.sgn (coef a) * Z.sgn (coef b) in
    let x := Z.abs (coef a) in
    let y := Z.abs (coef b) in
    let shift := ndigits y - ndigits x + prec + 1 in
    let e := expo a - expo b - shift in
    let '(q, r) :=
      if 0 <=? shift then (x * 10 ^ shift / y, (x * 10 ^ shift) mod y)
      else (x / (y * 10 ^ (- shift)), x mod (y * 10 ^ (- shift))) in
    let '(c, e') :=
      if r =? 0 then strip_zeros (Z.to_nat shift) q e
      else (if q mod 5 =? 0 then q + 1 else q, e) in
    Some (fix_ (mk (sign * c) e')).

(** The rational number a decimal denotes. *)
Definition value (a : t) : Q := inject_Z (coef a) * (10 # 1) ^ expo a.

(** The unrounded result already fits the context precision. *)
Definition fits (a : t) : Prop := Z.abs (coef a) < 10 ^ prec.

Definition fitsb (a : t) : bool := Z.abs (coef a) <? 10 ^ prec.

(** A rational that some decimal of at most [prec] digits denotes: the
    operations return such a result unrounded. *)
Definition representable (x : Q) : Prop :=
  exists c e : Z, Z.abs c < 10 ^ prec /\ x == inject_Z c * (10 # 1) ^ e.

End Dec.

(** ** Python's [float] (IEEE binary64) and its conversions *)

Module Float64.

(** The binary64 value nearest to [p / q] ([0 < p], [0 < q]), ties to
    even: what [float(Decimal)], [float(int)] and [int / int] compute. *)
Definition of_ratio (p q : Z) : float :=
  let scaled (k : Z) := if 0 <=? k then (p, q * 2 ^ k) else (p * 2 ^ (- k), q) in
  let k0 := Z.log2 p - Z.log2 q - 52 in
  let m0 := let '(n, d) := scaled k0 in n / d in
  let k1 := if m0 <? 2 ^ 52 then k0 - 1
            else if 2 ^ 53 <=? m0 then k0 + 1 else k0 in
  let k := Z.max k1 (-1074) in
  let m := let '(n, d) := scaled k in Dec.round_half_even n d in
  if 1024 <=? Z.log2 m + k then PrimFloat.infinity
  else Z.ldexp (of_uint63 (Uint63.of_Z m)) k.

Definition of_signed_ratio (p q : Z) : float :=
  if p =? 0 then PrimFloat.zero
  else if p <? 0 then PrimFloat.opp (of_ratio (- p) q)
  else of_ratio p q.

(** [float(d)] for a [Decimal] [d]. *)
Definition of_dec (d : Dec.t) : float :=
  if 0 <=? Dec.expo d
  then of_signed_ratio (Dec.coef d * 10 ^ Dec.expo d) 1
  else of_signed_ratio (Dec.coef d) (10 ^ (- Dec.expo d)).

(** [float(n)] for an [int] [n]. *)
Definition of_Z (n : Z) : float := of_signed_ratio n 1.

(** [a / b] for two [int]s, [b <> 0] (true division). *)
Definition div_int (a b : Z) : float :=
  if b <? 0 then of_signed_ratio (- a) (- b) else of_signed_ratio a b.

(** The exact value [p / q] of a finite non-zero float, with its sign. *)
Definition to_ratio (x : float) : option (bool * Z * Z) :=
  match Prim2SF x with
  | S754_finite s m e =>
      Some (s, if 0 <=? e then Zpos m * 2 ^ e else Zpos m,
               if 0 <=? e then 1 else 2 ^ (- e))
  | _ => None
  end.

(** [floor (log10 (p / q))] *)
Definition decexp (p q : Z) : Z :=
  let d := Dec.ndigits p - Dec.ndigits q in
  let le := if 0 <=? d then q * 10 ^ d <=? p else q <=? p * 10 ^ (- d) in
  if le then d else d - 1.

(** The decimals [lo * 10^s <= p/q < (lo+1) * 10^s] with [n] digits. *)
Definition bracket (p q n : Z) : Z * Z :=
  let s := decexp p q - n + 1 in
  ((if 0 <=? s then p / (q * 10 ^ s) else p * 10 ^ (- s) / q), s).

Definition reads_as (x : float) (c s : Z) : bool :=
  PrimFloat.eqb (of_dec (Dec.mk c s)) x.

(** The shortest digit string that reads back as [x]; of two of the same
    length the one nearer to [x]. *)
Fixpoint shortest (fuel : nat) (n : Z) (x : float) (p q : Z) : Z * Z :=
  let '(lo, s) := bracket p q n in
  match fuel with
  | O => (lo, s)
  | S fuel' =>
      let oklo := reads_as x lo s in
      let okhi := reads_as x (lo + 1) s in
      (* is [lo] at least as near to [p/q] as [lo + 1]? *)
      let lonear :=
        if 0 <=? s then 2 * p <=? (2 * lo + 1) * 10 ^ s * q
        else 2 * p * 10 ^ (- s) <=? (2 * lo + 1) * q in
      if oklo && (negb okhi || lonear) then (lo, s)
      else if okhi then (lo + 1, s)
      else shortest fuel' (n + 1) x p q
  end.

Definition strip (c s : Z) : Z * Z :=
  Dec.strip_zeros (Z.to_nat (Dec.ndigits c)) c s.

(** [Decimal(str(x))]: [repr] prints the shortest digits, in positional
    notation with at least one fractional digit when the decimal point
    falls within [-4 < decpt <= 16], in exponent notation otherwise.
    [None] for NaN and the infinities. *)
Definition to_dec (x : float) : option Dec.t :=
  if PrimFloat.is_zero x then Some (Dec.mk 0 (-1))
  else
    match to_ratio x with
    | None => None
    | Some (sg, p, q) =>
        let '(c0, s0) := shortest 17 1 (PrimFloat.abs x) p q in
        let '(c, s) := strip c0 s0 in
        let n := Dec.ndigits c in
        let decpt := n + s in
        let sign := if sg then -1 else 1 in
        if (n <=? decpt) && (decpt <=? 16)
        then Some (Dec.mk (sign * c * 10 ^ (decpt - n + 1)) (-1))
        else Some (Dec.mk (sign * c) s)
    end.

End Float64.

(** ** Strings *)

(** [str.upper] on ASCII text (ticker symbols); other bytes are kept. *)
Definition upper_ascii (c : ascii) : ascii :=
  let n := nat_of_ascii c in
  if (97 <=? n)%nat && (n <=? 122)%nat then ascii_of_nat (n - 32) else c.

Fixpoint upper (s : string) : string :=
  match s with
  | EmptyString => EmptyString
  | String c s' => String (upper_ascii c) (upper s')
  end.

(** ** The tables of [backend/app/database.py]

    Only the columns the trading core reads or writes are kept.  Rows are
    in insertion order; timestamps are left out. *)

Module Portfolio.
Record t : Set := mk { id : Z; cash_balance : Dec.t }.
End Portfolio.

Module Position.
Record t : Set :=
  mk { portfolio_id : Z; symbol : string; quantity : Z; average_cost : Dec.t }.
End Position.

Inductive TradeStatus : Set := PENDING | COMPLETED | FAILED | CANCELLED.

Module Trade.
Record t : Set :=
  mk { id : Z; portfolio_id : Z; symbol : string; trade_type : string;
       quantity : Z; price : Dec.t; total_amount : Dec.t; fees : Dec.t;
       status : TradeStatus }.
End Trade.

Module Stock.
Record t : Set :=
  mk { symbol : string; name : string; current_price : Dec.t;
       previous_close : Dec.t }.
End Stock.

Record Database : Set :=
  { portfolios : list Portfolio.t;
    positions : list Position.t;
    trades : list Trade.t;
    stocks : list Stock.t }.

(** ** Requests, responses, the price oracle *)

Inductive OrderType : Set := BUY | SELL.

(** [TradeRequest]; its validator rejects [quantity <= 0] before any
    service is called. *)
Module TradeRequest.
Record t : Set := mk { symbol : string; quantity : Z; order_type : OrderType }.
Definition valid (r : t) : Prop := 0 < quantity r.
End TradeRequest.

(** [StockInfo]: [current_price] is [Optional[Decimal]]. *)
Module StockInfo.
Record t : Set := mk { symbol : string; name : string; current_price : option Dec.t }.
End StockInfo.

Inductive exn : Set :=
| MultipleResultsFound   (* [scalar_one_or_none] on more than one row *)
| InvalidOperation       (* [Decimal(str(None))], [0 / 0] *)
| DivisionByZero
| TypeError              (* [float(None)], [None * int] *)
| OverflowError          (* an [int] too large for a [float] *)
| NonFiniteAmount.       (* a NaN or infinite amount, which [Dec.t] lacks *)

(** The f-string messages of the responses, by their shape. *)
Inductive Message : Set :=
| UnableToGetPrice (symbol : string)
| PortfolioNotFound
| InsufficientFunds (need have : Dec.t)
| InsufficientShares (trying available : Z)
| SuccessfullyBought (quantity : Z) (symbol : string) (price : Dec.t)
| SuccessfullySold (quantity : Z) (symbol : string) (price : Dec.t)
| TradeExecutionFailed (e : exn).

Module TradeResponse.
Record t : Set :=
  mk { success : bool; message : Message; trade_id : option Z;
       executed_price : option float; executed_quantity : option Z;
       total_cost : option float; total_proceeds : option float;
       fees : option float }.

Definition failure (m : Message) : t :=
  mk false m None None None None None None.
End TradeResponse.

(** ** One database session

    A session works on [pending]; [commit] makes it the stored state.  A
    request that ends without [commit] leaves [committed] as it was. *)

Record Session : Set := { committed : Database; pending : Database }.

Inductive result (A : Type) : Type :=
| Ok (a : A) (s : Session)
| Raise (e : exn) (s : Session).
Arguments Ok {A} a s.
Arguments Raise {A} e s.

Definition M (A : Type) : Type := Session -> result A.

Definition ret {A} (a : A) : M A := fun s => Ok a s.

Definition bind {A B} (m : M A) (k : A -> M B) : M B :=
  fun s => match m s with
           | Ok a s' => k a s'
           | Raise e s' => Raise e s'
           end.

Definition raise {A} (e : exn) : M A := fun s => Raise e s.

#[global] Instance M_ret : MRet M := @ret.
#[global] Instance M_bind : MBind M := fun A B k m => bind m k.

Definition gets {A} (f : Database -> A) : M A := fun s => Ok (f (pending s)) s.

Definition modify (f : Database -> Database) : M unit :=
  fun s => Ok tt {| committed := committed s; pending := f (pending s) |}.

(** [await db.commit()] *)
Definition commit : M unit :=
  fun s => Ok tt {| committed := pending s; pending := pending s |}.

(** The rows that satisfy [p], each with its place in the table. *)
Fixpoint where_ {A} (p : A -> bool) (rows : list A) (i : nat) : list (nat * A) :=
  match rows with
  | [] => []
  | r :: rows' =>
      if p r then (i, r) :: where_ p rows' (S i) else where_ p rows' (S i)
  end.

(** [result.scalar_one_or_none()] *)
Definition scalar_one_or_none {A} (found : list (nat * A)) : M (option (nat * A)) :=
  match found with
  | [] => ret None
  | [r] => ret (Some r)
  | _ => raise MultipleResultsFound
  end.

(** An autoincrementing integer primary key. *)
Definition next_id (ids : list Z) : Z := 1 + foldr Z.max 0 ids.

(** [select(Portfolio).where(Portfolio.id == portfolio_id)] *)
Definition portfolio_rows (portfolio_id : Z) (db : Database) : list (nat * Portfolio.t) :=
  where_ (fun p => Portfolio.id p =? portfolio_id) (portfolios db) 0.

(** [select(Position).where(and_(portfolio_id == .., symbol == ..))] *)
Definition position_rows (portfolio_id : Z) (symbol : string) (db : Database)
  : list (nat * Position.t) :=
  where_ (fun p => (Position.portfolio_id p =? portfolio_id)
                   && String.eqb (Position.symbol p) symbol) (positions db) 0.

Definition select_portfolio (portfolio_id : Z) : M (option (nat * Portfolio.t)) :=
  found ← gets (portfolio_rows portfolio_id);
  scalar_one_or_none found.

Definition select_position (portfolio_id : Z) (symbol : string)
  : M (option (nat * Position.t)) :=
  found ← gets (position_rows portfolio_id symbol);
  scalar_one_or_none found.

Definition select_stock (symbol : string) : M (option (nat * Stock.t)) :=
  rows ← gets stocks;
  scalar_one_or_none (where_ (fun s => String.eqb (Stock.symbol s) symbol) rows 0).

Definition set_portfolio (i : nat) (p : Portfolio.t) : M unit :=
  modify (fun db => {| portfolios := <[i := p]> (portfolios db);
                       positions := positions db; trades := trades db;
                       stocks := stocks db |}).

Definition set_position (i : nat) (p : Position.t) : M unit :=
  modify (fun db => {| portfolios := portfolios db;
                       positions := <[i := p]> (positions db);
                       trades := trades db; stocks := stocks db |}).

Definition add_position (p : Position.t) : M unit :=
  modify (fun db => {| portfolios := portfolios db;
                       positions := positions db ++ [p];
                       trades := trades db; stocks := stocks db |}).

Definition delete_position (i : nat) : M unit :=
  modify (fun db => {| portfolios := portfolios db;
                       positions := delete i (positions db);
                       trades := trades db; stocks := stocks db |}).

(** [db.add(trade)]; the key the row gets is returned. *)
Definition add_trade (mk_trade : Z -> Trade.t) : M Z :=
  rows ← gets trades;
  let k := next_id (map Trade.id rows) in
  modify (fun db => {| portfolios := portfolios db; positions := positions db;
                       trades := trades db ++ [mk_trade k];
                       stocks := stocks db |});;
  ret k.

Definition set_stock (i : nat) (s : Stock.t) : M unit :=
  modify (fun db => {| portfolios := portfolios db; positions := positions db;
                       trades := trades db; stocks := <[i := s]> (stocks db) |}).

Definition add_stock (s : Stock.t) : M unit :=
  modify (fun db => {| portfolios := portfolios db; positions := positions db;
                       trades := trades db; stocks := stocks db ++ [s] |}).

(** [x / y] on [Decimal]s with the context's traps. *)
Definition decimal_div (x y : Dec.t) : M Dec.t :=
  match Dec.div x y with
  | Some q => ret q
  | None => raise (if Dec.is_zero x then InvalidOperation else DivisionByZero)
  end.

(** [Decimal(str(v))] for an [Optional[Decimal]] [v]. *)
Definition decimal_of_str (v : option Dec.t) : M Dec.t :=
  match v with
  | Some d => ret d
  | None => raise InvalidOperation
  end.

(** [try: body except Exception: handler] where the handler does not touch
    the session. *)
Definition try_except {A} (body : M A) (handler : exn -> A) : M A :=
  fun s => match body s with
           | Ok a s' => Ok a s'
           | Raise e s' => Ok (handler e) s'
           end.

(** What a request leaves in the database: the state of the last commit. *)
Definition run {A} (m : M A) (db : Database) : option A * Database :=
  match m {| committed := db; pending := db |} with
  | Ok a s => (Some a, committed s)
  | Raise _ s => (None, committed s)
  end.

(** ** [TradingService] ([backend/app/trading/services.py]) *)

(** [Decimal('0.0005')]: the 0.05% brokerage charge. *)
Definition brokerage_rate : Dec.t := Dec.mk 5 (-4).

Section TradingService.

(** [StockService.get_stock_info]: the price oracle. *)
Variable get_stock_info : string -> option StockInfo.t.

Definition _update_stock_cache (symbol : string) (price : Dec.t) (name : string)
  : M unit :=
  try_except
    (existing_stock ← select_stock symbol;
     match existing_stock with
     | Some (i, st) =>
         set_stock i (Stock.mk (Stock.symbol st) name price (Stock.previous_close st))
     | None =>
         add_stock (Stock.mk symbol name price price)
     end)
    (fun _ => tt).

Definition _execute_buy_order (ref : nat) (portfolio : Portfolio.t)
    (symbol : string) (quantity : Z) (price trade_value fees : Dec.t)
    (stock_name : string) : M TradeResponse.t :=
  let total_cost := Dec.add trade_value fees in
  if Dec.ltb (Portfolio.cash_balance portfolio) total_cost then
    ret (TradeResponse.failure
           (InsufficientFunds total_cost (Portfolio.cash_balance portfolio)))
  else
    set_portfolio ref
      (Portfolio.mk (Portfolio.id portfolio)
         (Dec.sub (Portfolio.cash_balance portfolio) total_cost));;
    position ← select_position (Portfolio.id portfolio) symbol;
    match position with
    | Some (i, pos) =>
        let total_value :=
          Dec.add (Dec.mul (Position.average_cost pos)
                           (Dec.of_Z (Position.quantity pos))) trade_value in
        let total_quantity := Position.quantity pos + quantity in
        average_cost ← decimal_div total_value (Dec.of_Z total_quantity);
        set_position i
          (Position.mk (Position.portfolio_id pos) (Position.symbol pos)
                       total_quantity average_cost)
    | None =>
        add_position (Position.mk (Portfolio.id portfolio) symbol quantity price)
    end;;
    trade_id ← add_trade (fun k =>
      Trade.mk k (Portfolio.id portfolio) symbol "buy" quantity price
               trade_value fees COMPLETED);
    _update_stock_cache symbol price stock_name;;
    commit;;
    ret (TradeResponse.mk true (SuccessfullyBought quantity symbol price)
           (Some trade_id) (Some (Float64.of_dec price)) (Some quantity)
           (Some (Float64.of_dec total_cost)) None
           (Some (Float64.of_dec fees))).

Definition _execute_sell_order (ref : nat) (portfolio : Portfolio.t)
    (symbol : string) (quantity : Z) (price trade_value fees : Dec.t)
  : M TradeResponse.t :=
  position ← select_position (Portfolio.id portfolio) symbol;
  match position with
  | None => ret (TradeResponse.failure (InsufficientShares quantity 0))
  | Some (i, pos) =>
      if Position.quantity pos <? quantity then
        ret (TradeResponse.failure
               (InsufficientShares quantity (Position.quantity pos)))
      else
        let new_quantity := Position.quantity pos - quantity in
        set_position i
          (Position.mk (Position.portfolio_id pos) (Position.symbol pos)
                       new_quantity (Position.average_cost pos));;
        (if new_quantity =? 0 then delete_position i else ret tt);;
        let net_proceeds := Dec.sub trade_value fees in
        set_portfolio ref
          (Portfolio.mk (Portfolio.id portfolio)
             (Dec.add (Portfolio.cash_balance portfolio) net_proceeds));;
        trade_id ← add_trade (fun k =>
          Trade.mk k (Portfolio.id portfolio) symbol "sell" quantity price
                   trade_value fees COMPLETED);
        commit;;
        ret (TradeResponse.mk true (SuccessfullySold quantity symbol price)
               (Some trade_id) (Some (Float64.of_dec price)) (Some quantity)
               None (Some (Float64.of_dec net_proceeds))
               (Some (Float64.of_dec fees)))
  end.

(** The [try] block of [execute_trade]. *)
Definition execute_trade_body (portfolio_id : Z) (trade_request : TradeRequest.t)
  : M TradeResponse.t :=
  match get_stock_info (TradeRequest.symbol trade_request) with
  | None =>
      ret (TradeResponse.failure
             (UnableToGetPrice (TradeRequest.symbol trade_request)))
  | Some stock_info =>
      current_price ← decimal_of_str (StockInfo.current_price stock_info);
      let symbol := upper (TradeRequest.symbol trade_request) in
      let quantity := TradeRequest.quantity trade_request in
      portfolio ← select_portfolio portfolio_id;
      match portfolio with
      | None => ret (TradeResponse.failure PortfolioNotFound)
      | Some (ref, portfolio) =>
          let trade_value := Dec.mul current_price (Dec.of_Z quantity) in
          let fees := Dec.mul trade_value brokerage_rate in
          match TradeRequest.order_type trade_request with
          | BUY =>
              _execute_buy_order ref portfolio symbol quantity current_price
                                 trade_value fees (StockInfo.name stock_info)
          | SELL =>
              _execute_sell_order ref portfolio symbol quantity current_price
                                  trade_value fees
          end
      end
  end.

(** [TradingService.execute_trade]: the response, and the database the
    request leaves behind. *)
Definition execute_trade (db : Database) (portfolio_id : Z)
    (trade_request : TradeRequest.t) : TradeResponse.t * Database :=
  match try_except (execute_trade_body portfolio_id trade_request)
          (fun e => TradeResponse.failure (TradeExecutionFailed e))
          {| committed := db; pending := db |} with
  | Ok r s => (r, committed s)
  | Raise e s => (TradeResponse.failure (TradeExecutionFailed e), committed s)
  end.

End TradingService.

(** ** [PortfolioService] ([backend/app/portfolio/services.py]) *)

Module PositionValue.
Record t : Set :=
  mk { symbol : string; quantity : Z; average_cost : float;
       current_price : float; market_value : float; cost_basis : float;
       unrealized_pnl : float; unrealized_pnl_percent : float }.
End PositionValue.

Module PortfolioValue.
Record t : Set :=
  mk { portfolio_id : Z; cash_balance : float; stock_value : float;
       total_value : float; positions : list PositionValue.t }.
End PortfolioValue.

Section PortfolioService.

(** [stock_service.get_stock_info]: the price oracle. *)
Variable get_stock_info : string -> option StockInfo.t.

(** The loop over the held positions (lines 45-68). *)
Fixpoint value_positions (held : list Position.t)
    (position_values : list PositionValue.t) (total_stock_value : Dec.t)
  : M (list PositionValue.t * Dec.t) :=
  match held with
  | [] => ret (position_values, total_stock_value)
  | position :: held' =>
      match get_stock_info (Position.symbol position) with
      | Some stock_info =>
          current_price ← decimal_of_str (StockInfo.current_price stock_info);
          let position_value :=
            Dec.mul current_price (Dec.of_Z (Position.quantity position)) in
          let cost_basis :=
            Dec.mul (Position.average_cost position)
                    (Dec.of_Z (Position.quantity position)) in
          let pnl := Dec.sub position_value cost_basis in
          pnl_percent ←
            (if Dec.gtb cost_basis Dec.zero
             then (r ← decimal_div pnl cost_basis; ret (Dec.mul r (Dec.of_Z 100)))
             else ret Dec.zero);
          value_positions held'
            (position_values ++
               [PositionValue.mk (Position.symbol position)
                  (Position.quantity position)
                  (Float64.of_dec (Position.average_cost position))
                  (Float64.of_dec current_price)
                  (Float64.of_dec position_value)
                  (Float64.of_dec cost_basis)
                  (Float64.of_dec pnl)
                  (Float64.of_dec pnl_percent)])
            (Dec.add total_stock_value position_value)
      | None => value_positions held' position_values total_stock_value
      end
  end.

(** The rows of [select(Position).where(portfolio_id == .., quantity > 0)]. *)
Definition held_positions (db : Database) (portfolio_id : Z) : list Position.t :=
  filter (fun p => (Position.portfolio_id p = portfolio_id) /\ (0 < Position.quantity p))
         (positions db).

Definition calculate_portfolio_value_body (portfolio_id : Z)
  : M (option PortfolioValue.t) :=
  portfolio ← select_portfolio portfolio_id;
  match portfolio with
  | None => ret None
  | Some (_, portfolio) =>
      held ← gets (fun db => held_positions db portfolio_id);
      '(position_values, total_stock_value) ← value_positions held [] Dec.zero;
      let total_value := Dec.add (Portfolio.cash_balance portfolio) total_stock_value in
      ret (Some (PortfolioValue.mk portfolio_id
                   (Float64.of_dec (Portfolio.cash_balance portfolio))
                   (Float64.of_dec total_stock_value)
                   (Float64.of_dec total_value)
                   position_values))
  end.

(** [PortfolioService.calculate_portfolio_value]; an exception is turned
    into [None]. *)
Definition calculate_portfolio_value (db : Database) (portfolio_id : Z)
  : option PortfolioValue.t :=
  match run (try_except (calculate_portfolio_value_body portfolio_id)
                        (fun _ => None)) db with
  | (Some r, _) => r
  | (None, _) => None
  end.

End PortfolioService.

(** *** The win rate of [calculate_real_portfolio_metrics] (lines 147-197)

    [all_trades] is the ledger of one portfolio, oldest first.  The other
    metrics of the function read the clock and are left out. *)

(** [symbol_trades[trade.symbol].append(trade)] on a [dict], which keeps its
    keys in the order of their first insertion. *)
Fixpoint dict_append (d : list (string * list Trade.t)) (k : string) (t : Trade.t)
  : list (string * list Trade.t) :=
  match d with
  | [] => [(k, [t])]
  | (k', ts) :: d' =>
      if String.eqb k' k then (k', ts ++ [t]) :: d'
      else (k', ts) :: dict_append d' k t
  end.

Definition symbol_trades (all_trades : list Trade.t) : list (string * list Trade.t) :=
  fold_left (fun d t => dict_append d (Trade.symbol t) t) all_trades [].

(** [sum(xs)] for floats, added from left to right.  (CPython from 3.12 on
    adds with a compensation term; the two agree on one summand.) *)
Definition fsum (xs : list float) : float := fold_left PrimFloat.add xs PrimFloat.zero.

Definition is_buy (t : Trade.t) : bool := String.eqb (Trade.trade_type t) "buy".
Definition is_sell (t : Trade.t) : bool := String.eqb (Trade.trade_type t) "sell".

(** [sum(float(t.price) for t in buy_trades) / len(buy_trades)] *)
Definition avg_buy_price (buy_trades : list Trade.t) : float :=
  PrimFloat.div (fsum (map (fun t => Float64.of_dec (Trade.price t)) buy_trades))
                (Float64.of_Z (Z.of_nat (length buy_trades))).

(** The sells of one symbol that count as profitable. *)
Definition profitable_of (trades : list Trade.t) : Z :=
  let buy_trades := filter (fun t => is_buy t = true) trades in
  let sell_trades := filter (fun t => is_sell t = true) trades in
  match buy_trades, sell_trades with
  | _ :: _, _ :: _ =>
      let avg := avg_buy_price buy_trades in
      Z.of_nat (length (filter (fun s => PrimFloat.ltb avg (Float64.of_dec (Trade.price s)) = true)
                               sell_trades))
  | _, _ => 0
  end.

Definition profitable_trades (all_trades : list Trade.t) : Z :=
  fold_left (fun n kv => n + profitable_of (snd kv)) (symbol_trades all_trades) 0.

Definition hundred : float := Float64.of_Z 100.

(** The [win_rate] field of the metrics. *)
Definition win_rate (all_trades : list Trade.t) : float :=
  match all_trades with
  | [] => PrimFloat.zero
  | _ =>
      let total_trades := Z.of_nat (length all_trades) in
      if 0 <? total_trades
      then PrimFloat.mul (Float64.div_int (profitable_trades all_trades) total_trades)
                         hundred
      else PrimFloat.zero
  end.

(** ** [CompetitionTradingService]
    ([backend/app/social/competition_trading_service.py]) *)

Module CompetitionParticipant.
Record t : Set :=
  mk { id : Z; competition_id : Z; user_id : Z;
       starting_balance : Dec.t; current_balance : Dec.t }.
End CompetitionParticipant.

(** A competition trade has no [fees] column. *)
Module CompetitionTrade.
Record t : Set :=
  mk { id : Z; competition_id : Z; participant_id : Z; user_id : Z;
       symbol : string; trade_type : string; quantity : Z;
       price : Dec.t; total_amount : Dec.t }.
End CompetitionTrade.

(** The participant row of the request and the competition ledger. *)
Record CompetitionDb : Set :=
  { participant : CompetitionParticipant.t;
    competition_trades : list CompetitionTrade.t }.

Inductive CompetitionMessage : Set :=
| CouldNotGetPriceData (symbol : string)
| InsufficientCash (need have : float)
| InsufficientSharesNeed (need have : Z)
| Successfully (order_type : OrderType) (quantity : Z) (symbol : string)
| CompetitionTradeFailed (e : exn).

Module CompetitionResponse.
Record t : Set :=
  mk { success : bool; message : CompetitionMessage; trade_id : option Z;
       executed_price : option float; fees : option float }.
End CompetitionResponse.

(** The same session discipline over the competition tables. *)
Record CSession : Set := { c_committed : CompetitionDb; c_pending : CompetitionDb }.

Inductive cresult (A : Type) : Type :=
| COk (a : A) (s : CSession)
| CRaise (e : exn) (s : CSession).
Arguments COk {A} a s.
Arguments CRaise {A} e s.

Definition CM (A : Type) : Type := CSession -> cresult A.

#[global] Instance CM_ret : MRet CM := fun A a s => COk a s.
#[global] Instance CM_bind : MBind CM := fun A B k m s =>
  match m s with
  | COk a s' => k a s'
  | CRaise e s' => CRaise e s'
  end.

Definition craise {A} (e : exn) : CM A := fun s => CRaise e s.

Definition cgets {A} (f : CompetitionDb -> A) : CM A := fun s => COk (f (c_pending s)) s.

Definition cmodify (f : CompetitionDb -> CompetitionDb) : CM unit :=
  fun s => COk tt {| c_committed := c_committed s; c_pending := f (c_pending s) |}.

Definition ccommit : CM unit :=
  fun s => COk tt {| c_committed := c_pending s; c_pending := c_pending s |}.

(** [await db.rollback()] *)
Definition crollback : CM unit :=
  fun s => COk tt {| c_committed := c_committed s; c_pending := c_committed s |}.

(** [Decimal(str(x))] for a float [x]. *)
Definition decimal_of_float (x : float) : CM Dec.t :=
  match Float64.to_dec x with
  | Some d => mret d
  | None => craise NonFiniteAmount
  end.

Section CompetitionTradingService.

(** [stock_service.get_stock_info]: the price oracle. *)
Variable get_stock_info : string -> option StockInfo.t.

Definition sum_quantity (participant_id : Z) (symbol trade_type : string)
    (rows : list CompetitionTrade.t) : Z :=
  foldr Z.add 0
    (map CompetitionTrade.quantity
       (filter (fun t => CompetitionTrade.participant_id t = participant_id
                         /\ CompetitionTrade.symbol t = symbol
                         /\ CompetitionTrade.trade_type t = trade_type) rows)).

(** [_get_current_position]: bought minus sold. *)
Definition _get_current_position (participant_id : Z) (symbol : string) : CM Z :=
  rows ← cgets competition_trades;
  mret (sum_quantity participant_id symbol "BUY" rows
        - sum_quantity participant_id symbol "SELL" rows).

(** [positions[symbol] += / -= quantity] *)
Fixpoint dict_add (d : list (string * Z)) (k : string) (n : Z) : list (string * Z) :=
  match d with
  | [] => [(k, 0 + n)]
  | (k', v) :: d' =>
      if String.eqb k' k then (k', v + n) :: d' else (k', v) :: dict_add d' k n
  end.

(** [_get_all_positions] *)
Definition _get_all_positions (participant_id : Z) (rows : list CompetitionTrade.t)
  : list (string * Z) :=
  fold_left
    (fun positions trade =>
       if String.eqb (CompetitionTrade.trade_type trade) "BUY"
       then dict_add positions (CompetitionTrade.symbol trade)
                     (CompetitionTrade.quantity trade)
       else dict_add positions (CompetitionTrade.symbol trade)
                     (- CompetitionTrade.quantity trade))
    (filter (fun t => CompetitionTrade.participant_id t = participant_id) rows) [].

(** [_update_participant_value]: it revalues the holdings and stores the
    figures in attributes that are not columns of the participant row, so
    all that is left of it is the exception of
    [stock_data.current_price * quantity] on a quote without a price. *)
Definition _update_participant_value : CM unit :=
  p ← cgets participant;
  rows ← cgets competition_trades;
  let held := filter (fun kv => 0 < snd kv)
                     (_get_all_positions (CompetitionParticipant.id p) rows) in
  if forallb (fun kv : string * Z =>
                match get_stock_info (fst kv) with
                | Some stock_data =>
                    match StockInfo.current_price stock_data with
                    | Some _ => true
                    | None => false
                    end
                | None => true
                end) held
  then ccommit
  else craise TypeError.

Definition set_current_balance (b : Dec.t) : CM unit :=
  cmodify (fun db =>
    {| participant :=
         CompetitionParticipant.mk
           (CompetitionParticipant.id (participant db))
           (CompetitionParticipant.competition_id (participant db))
           (CompetitionParticipant.user_id (participant db))
           (CompetitionParticipant.starting_balance (participant db)) b;
       competition_trades := competition_trades db |}).

Definition add_competition_trade (mk_trade : Z -> CompetitionTrade.t) : CM Z :=
  rows ← cgets competition_trades;
  let k := next_id (map CompetitionTrade.id rows) in
  cmodify (fun db => {| participant := participant db;
                        competition_trades := competition_trades db ++ [mk_trade k] |});;
  mret k.

Definition brokerage_rate_float : float := Float64.of_dec brokerage_rate.

(** The [try] block of [execute_competition_trade]. *)
Definition execute_competition_trade_body (trade_request : TradeRequest.t)
  : CM CompetitionResponse.t :=
  let symbol := TradeRequest.symbol trade_request in
  let quantity := TradeRequest.quantity trade_request in
  match get_stock_info symbol with
  | None =>
      mret (CompetitionResponse.mk false (CouldNotGetPriceData symbol) None
              (Some PrimFloat.zero) None)
  | Some stock_data =>
      current_price ←
        match StockInfo.current_price stock_data with
        | Some d => mret (Float64.of_dec d)
        | None => craise TypeError
        end;
      quantity_float ←
        (if PrimFloat.is_infinity (Float64.of_Z quantity)
         then craise OverflowError else mret (Float64.of_Z quantity));
      let trade_value := PrimFloat.mul current_price quantity_float in
      let brokerage := PrimFloat.mul trade_value brokerage_rate_float in
      let total_cost := PrimFloat.add trade_value brokerage in
      let net_proceeds := PrimFloat.sub trade_value brokerage in
      p ← cgets participant;
      let mk_trade (trade_type : string) (price total_amount : Dec.t) (k : Z) :=
        CompetitionTrade.mk k (CompetitionParticipant.competition_id p)
          (CompetitionParticipant.id p) (CompetitionParticipant.user_id p)
          symbol trade_type quantity price total_amount in
      let finish (trade_type : string) : CM CompetitionResponse.t :=
        price ← decimal_of_float current_price;
        total_amount ← decimal_of_float trade_value;
        trade_id ← add_competition_trade (mk_trade trade_type price total_amount);
        ccommit;;
        _update_participant_value;;
        mret (CompetitionResponse.mk true
                (Successfully (TradeRequest.order_type trade_request) quantity symbol)
                (Some trade_id) (Some current_price) (Some brokerage)) in
      match TradeRequest.order_type trade_request with
      | BUY =>
          if PrimFloat.ltb (Float64.of_dec (CompetitionParticipant.current_balance p))
                           total_cost
          then mret (CompetitionResponse.mk false
                       (InsufficientCash total_cost
                          (Float64.of_dec (CompetitionParticipant.current_balance p)))
                       None (Some current_price) (Some brokerage))
          else
            debit ← decimal_of_float total_cost;
            set_current_balance
              (Dec.sub (CompetitionParticipant.current_balance p) debit);;
            finish "BUY"
      | SELL =>
          current_position ← _get_current_position (CompetitionParticipant.id p) symbol;
          if current_position <? quantity
          then mret (CompetitionResponse.mk false
                       (InsufficientSharesNeed quantity current_position)
                       None (Some current_price) (Some brokerage))
          else
            credit ← decimal_of_float net_proceeds;
            set_current_balance
              (Dec.add (CompetitionParticipant.current_balance p) credit);;
            finish "SELL"
      end
  end.

(** [CompetitionTradingService.execute_competition_trade]: on an exception
    the handler rolls the session back and answers with a failure. *)
Definition execute_competition_trade (db : CompetitionDb)
    (trade_request : TradeRequest.t) : CompetitionResponse.t * CompetitionDb :=
  match execute_competition_trade_body trade_request
          {| c_committed := db; c_pending := db |} with
  | COk r s => (r, c_committed s)
  | CRaise e s =>
      (CompetitionResponse.mk false (CompetitionTradeFailed e) None
         (Some PrimFloat.zero) None, c_committed s)
  end.

End CompetitionTradingService.

(** ** Notions the statements use *)

(** The oracle's contract: a quote is never negative. *)
Definition quotes_nonneg (get_stock_info : string -> option StockInfo.t) : Prop :=
  forall s info p,
    get_stock_info s = Some info -> StockInfo.current_price info = Some p ->
    0 <= Dec.coef p.

(** The databases a run of validated orders leads to. *)
Inductive reachable (db0 : Database) : Database -> Prop :=
| reachable_init : reachable db0 db0
| reachable_trade get_stock_info db portfolio_id trade_request :
    reachable db0 db ->
    quotes_nonneg get_stock_info ->
    TradeRequest.valid trade_request ->
    reachable db0 (snd (execute_trade get_stock_info db portfolio_id trade_request)).

Definition balances_nonneg (db : Database) : Prop :=
  Forall (fun pf => (0 <= Dec.value (Portfolio.cash_balance pf))%Q) (portfolios db).

Definition quantities_positive (db : Database) : Prop :=
  Forall (fun pos => 0 < Position.quantity pos) (positions db).







(** The buys of one symbol, over the whole ledger. *)
Definition buys_of (symbol : string) (all_trades : list Trade.t) : list Trade.t :=
  filter (fun t => is_buy t = true /\ Trade.symbol t = symbol) all_trades.

(** A sell priced above the plain mean of every buy price of its symbol. *)
Definition profitable_sell (all_trades : list Trade.t) (t : Trade.t) : bool :=
  is_sell t &&
  match buys_of (Trade.symbol t) all_trades with
  | [] => false
  | (_ :: _) as buy_trades =>
      PrimFloat.ltb (avg_buy_price buy_trades) (Float64.of_dec (Trade.price t))
  end.

(** The win rate as the specification words it: among the sells that close
    a round trip (a buy of the symbol came earlier), the share priced above
    the mean price of the buys made so far, in percent. *)
Fixpoint round_trip_sells (earlier rest : list Trade.t) : Z * Z :=
  match rest with
  | [] => (0, 0)
  | t :: rest' =>
      let '(wins, sells) := round_trip_sells (earlier ++ [t]) rest' in
      if is_sell t then
        match buys_of (Trade.symbol t) earlier with
        | [] => (wins, sells)
        | (_ :: _) as buy_trades =>
            ((if PrimFloat.ltb (avg_buy_price buy_trades) (Float64.of_dec (Trade.price t))
              then wins + 1 else wins), sells + 1)
        end
      else (wins, sells)
  end.

Definition spec_win_rate (all_trades : list Trade.t) : float :=
  let '(wins, sells) := round_trip_sells [] all_trades in
  if 0 <? sells then PrimFloat.mul (Float64.div_int wins sells) hundred
  else PrimFloat.zero.

(** The held positions the oracle has no quote for. *)
Definition unpriced (get_stock_info : string -> option StockInfo.t)
    (pos : Position.t) : Prop :=
  get_stock_info (Position.symbol pos) = None.

(** The database without the positions that have no quote. *)
Definition without_unpriced (get_stock_info : string -> option StockInfo.t)
    (db : Database) : Database :=
  {| portfolios := portfolios db;
     positions := filter (fun pos => ~ unpriced get_stock_info pos) (positions db);
     trades := trades db; stocks := stocks db |}.

(** The same sum over a competition ledger.  A competition trade stores the
    gross amount only, so the fee is taken to be 0.05% of it. *)
Definition competition_signed_amount (t : CompetitionTrade.t) : Q :=
  let gross := Dec.value (CompetitionTrade.total_amount t) in
  let fee := (gross * (5 # 10000))%Q in
  if String.eqb (CompetitionTrade.trade_type t) "BUY"
  then (- (gross + fee))%Q else (gross - fee)%Q.

Definition competition_ledger_sum (ledger : list CompetitionTrade.t) : Q :=
  foldr (fun t acc => (competition_signed_amount t + acc)%Q) 0%Q ledger.


(** ** Worked examples *)

(** An oracle that quotes every symbol at [price]. *)
Definition quote (price : Dec.t) (symbol : string) : option StockInfo.t :=
  Some (StockInfo.mk (upper symbol) "Apple Inc." (Some price)).

(** One portfolio holding 100000.00 in cash. *)
Definition fresh_db : Database :=
  {| portfolios := [Portfolio.mk 1 (Dec.mk 10000000 (-2))];
     positions := []; trades := []; stocks := [] |}.

Definition buy (symbol : string) (quantity : Z) : TradeRequest.t :=
  TradeRequest.mk symbol quantity BUY.

Definition sell (symbol : string) (quantity : Z) : TradeRequest.t :=
  TradeRequest.mk symbol quantity SELL.

(** An oracle that knows one symbol only. *)
Definition quote_only (known : string) (price : Dec.t) (symbol : string)
  : option StockInfo.t :=
  if String.eqb symbol known then quote price symbol else None.

(** Portfolio 1 with 1000.00 in cash and the given positions. *)
Definition holding (held : list Position.t) : Database :=
  {| portfolios := [Portfolio.mk 1 (Dec.mk 100000 (-2))];
     positions := held; trades := []; stocks := [] |}.

(** A participant who starts a competition with 10000.00. *)
Definition competitor : CompetitionDb :=
  {| participant := CompetitionParticipant.mk 1 1 1 (Dec.mk 1000000 (-2))
                                              (Dec.mk 1000000 (-2));
     competition_trades := [] |}.

(** * The rest of the services *)

(** ** The read side of [TradingService]
    ([backend/app/trading/services.py], lines 248-318) *)

(** A value that is an [int] on one branch and a [float] on the other. *)
Inductive number : Set :=
| PyInt (n : Z)
| PyFloat (x : float).

(** The dictionaries of [get_trade_history]; [created_at] is left out, as
    it is from the ledger rows. *)
Module TradeHistoryItem.
Record t : Set :=
  mk { id : Z; symbol : string; type_ : string; quantity : Z;
       price : float; total_amount : float; fees : number;
       status : TradeStatus }.
End TradeHistoryItem.

(** [select(Trade).where(Trade.portfolio_id == portfolio_id)
      .order_by(Trade.created_at.desc()).limit(limit)]:
    the ledger is kept oldest first, so newest first is its reverse.  A
    negative [limit] is read differently by different engines and is
    outside the embedding. *)
Definition recent_trades (db : Database) (portfolio_id limit : Z) : list Trade.t :=
  take (Z.to_nat limit)
       (reverse (filter (fun t => Trade.portfolio_id t = portfolio_id) (trades db))).

(** One dictionary of the history; [float(trade.fees) if trade.fees else 0],
    where a [Decimal] is false when it is zero. *)
Definition trade_history_item (trade : Trade.t) : TradeHistoryItem.t :=
  TradeHistoryItem.mk (Trade.id trade) (Trade.symbol trade) (Trade.trade_type trade)
    (Trade.quantity trade)
    (Float64.of_dec (Trade.price trade))
    (Float64.of_dec (Trade.total_amount trade))
    (if Dec.is_zero (Trade.fees trade) then PyInt 0
     else PyFloat (Float64.of_dec (Trade.fees trade)))
    (Trade.status trade).

(** [TradingService.get_trade_history] *)
Definition get_trade_history (db : Database) (portfolio_id limit : Z)
  : list TradeHistoryItem.t :=
  map trade_history_item (recent_trades db portfolio_id limit).

(** The dictionaries of [get_portfolio_positions]. *)
Module PositionData.
Record t : Set :=
  mk { symbol : string; name : string; quantity : Z; average_cost : float;
       current_price : option Dec.t; market_value : Dec.t; cost_basis : float;
       unrealized_pnl : float; unrealized_pnl_percent : number }.
End PositionData.

(** [current_price * position.quantity] for an [Optional[Decimal]] price
    and an [int]: [None * int] is a [TypeError]. *)
Definition decimal_times_int (x : option Dec.t) (n : Z) : M Dec.t :=
  match x with
  | Some d => ret (Dec.mul d (Dec.of_Z n))
  | None => raise TypeError
  end.

(** [x * n] for a [float] and an [int]: the [int] is converted first. *)
Definition float_times_int (x : float) (n : Z) : M float :=
  if PrimFloat.is_infinity (Float64.of_Z n) then raise OverflowError
  else ret (PrimFloat.mul x (Float64.of_Z n)).

(** [market_value - cost_basis] for a [Decimal] and a [float]:
    [Decimal.__sub__] and [float.__rsub__] both answer [NotImplemented],
    which is a [TypeError]. *)
Definition decimal_minus_float (x : Dec.t) (y : float) : M float :=
  raise TypeError.

Section TradingServiceReads.

(** [StockService.get_stock_info]: the price oracle. *)
Variable get_stock_info : string -> option StockInfo.t.

(** The loop of [get_portfolio_positions] (lines 261-282). *)
Fixpoint position_data (held : list Position.t) (acc : list PositionData.t)
  : M (list PositionData.t) :=
  match held with
  | [] => ret acc
  | position :: held' =>
      match get_stock_info (Position.symbol position) with
      | Some stock_info =>
          let current_price := StockInfo.current_price stock_info in
          market_value ← decimal_times_int current_price (Position.quantity position);
          cost_basis ← float_times_int (Float64.of_dec (Position.average_cost position))
                                       (Position.quantity position);
          unrealized_pnl ← decimal_minus_float market_value cost_basis;
          let unrealized_pnl_percent :=
            if PrimFloat.ltb PrimFloat.zero cost_basis
            then PyFloat (PrimFloat.mul (PrimFloat.div unrealized_pnl cost_basis)
                                        (Float64.of_Z 100))
            else PyInt 0 in
          position_data held'
            (acc ++ [PositionData.mk (Position.symbol position)
                       (StockInfo.name stock_info)
                       (Position.quantity position)
                       (Float64.of_dec (Position.average_cost position))
                       current_price market_value cost_basis unrealized_pnl
                       unrealized_pnl_percent])
      | None => position_data held' acc
      end
  end.

(** [TradingService.get_portfolio_positions]; an exception is turned into
    the empty list. *)
Definition get_portfolio_positions (db : Database) (portfolio_id : Z)
  : list PositionData.t :=
  match run (try_except
               (held ← gets (fun db => held_positions db portfolio_id);
                position_data held [])
               (fun _ => [])) db with
  | (Some r, _) => r
  | (None, _) => []
  end.

End TradingServiceReads.

(** ** More of [PortfolioService]
    ([backend/app/portfolio/services.py], lines 86-131 and 391-422) *)

(** [portfolio.initial_balance]: the [Portfolio] model of
    [backend/app/database.py] (lines 57-72) has the columns [id], [user_id],
    [cash_balance], [total_value], [total_invested], [total_returns],
    [created_at], [updated_at] and the relationship [user], and no
    attribute of this name: reading it is an [AttributeError], for which
    [None] stands here. *)
Definition initial_balance (portfolio : Portfolio.t) : option Dec.t := None.

Module PortfolioPerformance.
Record t : Set :=
  mk { portfolio_id : Z; period_days : Z; total_return : float;
       total_return_percent : number; daily_return_percent : number;
       initial_value : float; current_value : float }.
End PortfolioPerformance.

(** The counters [update_all_portfolios] returns. *)
Module UpdateCounts.
Record t : Set := mk { updated : Z; errors : Z; total : Z }.
End UpdateCounts.

Section PortfolioServiceMore.

(** [stock_service.get_stock_info]: the price oracle. *)
Variable get_stock_info : string -> option StockInfo.t.

(** [PortfolioService.calculate_portfolio_performance]; every exception is
    turned into [None].  The figures after the read of [initial_balance]
    are float arithmetic on it. *)
Definition calculate_portfolio_performance (db : Database)
    (portfolio_id period_days : Z) : option PortfolioPerformance.t :=
  match calculate_portfolio_value get_stock_info db portfolio_id with
  | None => None
  | Some current_value =>
      match run (select_portfolio portfolio_id) db with
      | (Some (Some (_, portfolio)), _) =>
          match initial_balance portfolio with
          | None => None
          | Some initial_balance =>
              let total_return :=
                PrimFloat.sub (PortfolioValue.total_value current_value)
                              (Float64.of_dec initial_balance) in
              let total_return_percent :=
                if Dec.gtb initial_balance Dec.zero
                then PyFloat (PrimFloat.mul
                                (PrimFloat.div total_return
                                               (Float64.of_dec initial_balance))
                                (Float64.of_Z 100))
                else PyInt 0 in
              let daily_return_percent :=
                if 0 <? period_days
                then match total_return_percent with
                     | PyFloat x => PyFloat (PrimFloat.div x (Float64.of_Z period_days))
                     | PyInt n => PyFloat (Float64.div_int n period_days)
                     end
                else PyInt 0 in
              Some (PortfolioPerformance.mk portfolio_id period_days total_return
                      total_return_percent daily_return_percent
                      (Float64.of_dec initial_balance)
                      (PortfolioValue.total_value current_value))
          end
      | _ => None
      end
  end.

(** The loop of [update_all_portfolios] (lines 402-412):
    [calculate_portfolio_value] raises nothing, it answers [None]. *)
Definition count_portfolio (db : Database) (counts : Z * Z) (portfolio : Portfolio.t)
  : Z * Z :=
  let '(updated_count, error_count) := counts in
  match calculate_portfolio_value get_stock_info db (Portfolio.id portfolio) with
  | Some _ => (updated_count + 1, error_count)
  | None => (updated_count, error_count + 1)
  end.

(** [PortfolioService.update_all_portfolios] *)
Definition update_all_portfolios (db : Database) : UpdateCounts.t :=
  let '(updated_count, error_count) :=
    fold_left (count_portfolio db) (portfolios db) (0, 0) in
  UpdateCounts.mk updated_count error_count (Z.of_nat (length (portfolios db))).

End PortfolioServiceMore.

(** A position whose quote, if there is one, carries a price. *)
Definition has_price (get_stock_info : string -> option StockInfo.t)
    (pos : Position.t) : Prop :=
  forall info, get_stock_info (Position.symbol pos) = Some info ->
    exists p, StockInfo.current_price info = Some p.

(** ** More about [CompetitionTradingService] *)

(** [positions[symbol]] on the dictionary of [_get_all_positions]. *)
Fixpoint dict_get (d : list (string * Z)) (k : string) : option Z :=
  match d with
  | [] => None
  | (k', v) :: d' => if String.eqb k' k then Some v else dict_get d' k
  end.

(** What [_get_current_position] answers for the participant of [db]. *)
Definition competition_holding (db : CompetitionDb) (symbol : string) : Z :=
  match _get_current_position (CompetitionParticipant.id (participant db)) symbol
          {| c_committed := db; c_pending := db |} with
  | COk n _ => n
  | CRaise _ _ => 0
  end.

(** The states of a competition account after any number of validated
    orders. *)
Inductive competition_reachable (db0 : CompetitionDb) : CompetitionDb -> Prop :=
| competition_reachable_init : competition_reachable db0 db0
| competition_reachable_trade get_stock_info db trade_request :
    competition_reachable db0 db ->
    TradeRequest.valid trade_request ->
    competition_reachable db0
      (snd (execute_competition_trade get_stock_info db trade_request)).

(** The oracle never answers with a quote that has no price. *)
Definition quotes_priced (get_stock_info : string -> option StockInfo.t) : Prop :=
  forall symbol info, get_stock_info symbol = Some info ->
    exists p, StockInfo.current_price info = Some p.

(** ** [RobustTradingService] ([backend/app/trading/robust_services.py]) *)

(** The dictionary of [live_data_service.get_live_price], as far as the
    service reads it; [current_price] is a [float]. *)
Module LiveData.
Record t : Set := mk { symbol : string; name : string; current_price : float }.
End LiveData.

(** The f-string messages of this service, by their shape. *)
Inductive RobustMessage : Set :=
| UnableToGetLivePrice (symbol : string)
| RobustPortfolioNotFound
| InsufficientFundsWithFees (need fees have : Dec.t)
| RobustInsufficientShares (trying available : Z)
| BoughtShares (quantity : Z)
| SoldShares (quantity : Z)
| BuyOrderFailed (e : exn)
| SellOrderFailed (e : exn)
| RobustBought (quantity : Z) (symbol : string) (price : Dec.t)
| RobustSold (quantity : Z) (symbol : string) (price : Dec.t)
| RobustTradeExecutionFailed (e : exn).

(** The dictionary [_execute_buy] and [_execute_sell] return. *)
Module TradeResult.
Record t : Set :=
  mk { success : bool; trade_id : option Z; message : RobustMessage }.
End TradeResult.

(** [TradeResponse], with the messages of this service. *)
Module RobustResponse.
Record t : Set :=
  mk { success : bool; message : RobustMessage; trade_id : option Z;
       executed_price : option float; executed_quantity : option Z;
       total_cost : option float; total_proceeds : option float;
       fees : option float }.

Definition failure (m : RobustMessage) : t :=
  mk false m None None None None None None.
End RobustResponse.

(** [await db.rollback()] *)
Definition rollback : M unit :=
  fun s => Ok tt {| committed := committed s; pending := committed s |}.

(** [Decimal(str(x))] for a [float] [x].  For a NaN or an infinity Python
    builds a special [Decimal], which [Dec.t] lacks: the statements about
    this service take the quotes to be finite. *)
Definition decimal_of_str_float (x : float) : M Dec.t :=
  match Float64.to_dec x with
  | Some d => ret d
  | None => raise NonFiniteAmount
  end.

(** The live quotes are finite numbers. *)
Definition quotes_finite (get_live_price : string -> option LiveData.t) : Prop :=
  forall symbol live_data, get_live_price symbol = Some live_data ->
    exists d, Float64.to_dec (LiveData.current_price live_data) = Some d.

(** The dictionary of [get_portfolio_data]; its positions have the fields
    of [PositionValue]. *)
Module PortfolioData.
Record t : Set :=
  mk { portfolio_id : Z; cash_balance : float; total_market_value : float;
       total_portfolio_value : float; positions : list PositionValue.t;
       day_change : float; day_change_percent : float }.
End PortfolioData.

Module RobustTradingService.

Section WithLiveData.

(** [live_data_service.get_live_price]: the price oracle of this service. *)
Variable get_live_price : string -> option LiveData.t.

(** [_execute_buy]: the columns [current_value], [unrealized_pnl],
    [user_id] and [last_updated] it also writes are not among those the
    tables here keep. *)
Definition _execute_buy (ref : nat) (portfolio : Portfolio.t) (symbol : string)
    (quantity : Z) (price : Dec.t) : M TradeResult.t :=
  try_except
    (let trade_value := Dec.mul price (Dec.of_Z quantity) in
     let fees := Dec.mul trade_value brokerage_rate in
     let total_cost := Dec.add trade_value fees in
     if Dec.ltb (Portfolio.cash_balance portfolio) total_cost then
       ret (TradeResult.mk false None
              (InsufficientFundsWithFees total_cost fees
                 (Portfolio.cash_balance portfolio)))
     else
       trade_id ← add_trade (fun k =>
         Trade.mk k (Portfolio.id portfolio) symbol "buy" quantity price
                  trade_value fees COMPLETED);
       existing_position ← select_position (Portfolio.id portfolio) symbol;
       match existing_position with
       | Some (i, pos) =>
           let old_value :=
             Dec.mul (Position.average_cost pos) (Dec.of_Z (Position.quantity pos)) in
           let new_value := Dec.add old_value trade_value in
           let new_quantity := Position.quantity pos + quantity in
           new_average_cost ← decimal_div new_value (Dec.of_Z new_quantity);
           set_position i
             (Position.mk (Position.portfolio_id pos) (Position.symbol pos)
                          new_quantity new_average_cost)
       | None =>
           add_position (Position.mk (Portfolio.id portfolio) symbol quantity price)
       end;;
       set_portfolio ref
         (Portfolio.mk (Portfolio.id portfolio)
            (Dec.sub (Portfolio.cash_balance portfolio) total_cost));;
       ret (TradeResult.mk true (Some trade_id) (BoughtShares quantity)))
    (fun e => TradeResult.mk false None (BuyOrderFailed e)).

(** [_execute_sell] *)
Definition _execute_sell (ref : nat) (portfolio : Portfolio.t) (symbol : string)
    (quantity : Z) (price : Dec.t) : M TradeResult.t :=
  try_except
    (position ← select_position (Portfolio.id portfolio) symbol;
     match position with
     | None => ret (TradeResult.mk false None (RobustInsufficientShares quantity 0))
     | Some (i, pos) =>
         if Position.quantity pos <? quantity then
           ret (TradeResult.mk false None
                  (RobustInsufficientShares quantity (Position.quantity pos)))
         else
           let trade_value := Dec.mul price (Dec.of_Z quantity) in
           let fees := Dec.mul trade_value brokerage_rate in
           let net_proceeds := Dec.sub trade_value fees in
           trade_id ← add_trade (fun k =>
             Trade.mk k (Portfolio.id portfolio) symbol "sell" quantity price
                      trade_value fees COMPLETED);
           let new_quantity := Position.quantity pos - quantity in
           set_position i
             (Position.mk (Position.portfolio_id pos) (Position.symbol pos)
                          new_quantity (Position.average_cost pos));;
           (if new_quantity =? 0 then delete_position i else ret tt);;
           set_portfolio ref
             (Portfolio.mk (Portfolio.id portfolio)
                (Dec.add (Portfolio.cash_balance portfolio) net_proceeds));;
           ret (TradeResult.mk true (Some trade_id) (SoldShares quantity))
     end)
    (fun e => TradeResult.mk false None (SellOrderFailed e)).

(** The [try] block of [execute_trade]. *)
Definition execute_trade_body (portfolio_id : Z) (trade_request : TradeRequest.t)
  : M RobustResponse.t :=
  let symbol := TradeRequest.symbol trade_request in
  let quantity := TradeRequest.quantity trade_request in
  match get_live_price symbol with
  | None => ret (RobustResponse.failure (UnableToGetLivePrice symbol))
  | Some live_data =>
      current_price ← decimal_of_str_float (LiveData.current_price live_data);
      let trade_value := Dec.mul current_price (Dec.of_Z quantity) in
      let fees := Dec.mul trade_value brokerage_rate in
      portfolio ← select_portfolio portfolio_id;
      match portfolio with
      | None => ret (RobustResponse.failure RobustPortfolioNotFound)
      | Some (ref, portfolio) =>
          let finish (trade_result : TradeResult.t) : M RobustResponse.t :=
            if TradeResult.success trade_result then
              commit;;
              match TradeRequest.order_type trade_request with
              | BUY =>
                  let total_cost := Dec.add trade_value fees in
                  ret (RobustResponse.mk true
                         (RobustBought quantity symbol current_price)
                         (TradeResult.trade_id trade_result)
                         (Some (Float64.of_dec current_price)) (Some quantity)
                         (Some (Float64.of_dec total_cost)) None
                         (Some (Float64.of_dec fees)))
              | SELL =>
                  let net_proceeds := Dec.sub trade_value fees in
                  ret (RobustResponse.mk true
                         (RobustSold quantity symbol current_price)
                         (TradeResult.trade_id trade_result)
                         (Some (Float64.of_dec current_price)) (Some quantity)
                         None (Some (Float64.of_dec net_proceeds))
                         (Some (Float64.of_dec fees)))
              end
            else
              rollback;;
              ret (RobustResponse.failure (TradeResult.message trade_result)) in
          match TradeRequest.order_type trade_request with
          | BUY =>
              let total_cost := Dec.add trade_value fees in
              if Dec.ltb (Portfolio.cash_balance portfolio) total_cost then
                ret (RobustResponse.failure
                       (InsufficientFundsWithFees total_cost fees
                          (Portfolio.cash_balance portfolio)))
              else
                trade_result ← _execute_buy ref portfolio symbol quantity current_price;
                finish trade_result
          | SELL =>
              trade_result ← _execute_sell ref portfolio symbol quantity current_price;
              finish trade_result
          end
      end
  end.

(** [RobustTradingService.execute_trade]: on an exception the handler rolls
    the session back and answers with a failure. *)
Definition execute_trade (db : Database) (portfolio_id : Z)
    (trade_request : TradeRequest.t) : RobustResponse.t * Database :=
  match execute_trade_body portfolio_id trade_request
          {| committed := db; pending := db |} with
  | Ok r s => (r, committed s)
  | Raise e s => (RobustResponse.failure (RobustTradeExecutionFailed e), committed s)
  end.

(** The loop of [get_portfolio_data] (lines 290-313), over all the
    positions of the portfolio. *)
Fixpoint live_positions (rows : list Position.t)
    (positions_data : list PositionValue.t) (total_market_value : Dec.t)
  : M (list PositionValue.t * Dec.t) :=
  match rows with
  | [] => ret (positions_data, total_market_value)
  | position :: rows' =>
      match get_live_price (Position.symbol position) with
      | Some live_data =>
          current_price ← decimal_of_str_float (LiveData.current_price live_data);
          let market_value :=
            Dec.mul current_price (Dec.of_Z (Position.quantity position)) in
          let cost_basis :=
            Dec.mul (Position.average_cost position)
                    (Dec.of_Z (Position.quantity position)) in
          let unrealized_pnl := Dec.sub market_value cost_basis in
          unrealized_pnl_percent ←
            (if Dec.gtb cost_basis Dec.zero
             then (r ← decimal_div unrealized_pnl cost_basis;
                   ret (Float64.of_dec (Dec.mul r (Dec.of_Z 100))))
             else ret (Float64.of_Z 0));
          live_positions rows'
            (positions_data ++
               [PositionValue.mk (Position.symbol position)
                  (Position.quantity position)
                  (Float64.of_dec (Position.average_cost position))
                  (Float64.of_dec current_price)
                  (Float64.of_dec market_value)
                  (Float64.of_dec cost_basis)
                  (Float64.of_dec unrealized_pnl)
                  unrealized_pnl_percent])
            (Dec.add total_market_value market_value)
      | None => live_positions rows' positions_data total_market_value
      end
  end.

(** [RobustTradingService.get_portfolio_data]; an exception is turned into
    [None]. *)
Definition get_portfolio_data (db : Database) (portfolio_id : Z)
  : option PortfolioData.t :=
  match run (try_except
               (portfolio ← select_portfolio portfolio_id;
                match portfolio with
                | None => ret None
                | Some (_, portfolio) =>
                    rows ← gets (fun db =>
                      filter (fun p => Position.portfolio_id p = portfolio_id)
                             (positions db));
                    '(positions_data, total_market_value) ←
                      live_positions rows [] Dec.zero;
                    let total_portfolio_value :=
                      Dec.add (Portfolio.cash_balance portfolio) total_market_value in
                    ret (Some (PortfolioData.mk (Portfolio.id portfolio)
                                 (Float64.of_dec (Portfolio.cash_balance portfolio))
                                 (Float64.of_dec total_market_value)
                                 (Float64.of_dec total_portfolio_value)
                                 positions_data PrimFloat.zero PrimFloat.zero))
                end)
               (fun _ => None)) db with
  | (Some r, _) => r
  | (None, _) => None
  end.

End WithLiveData.

End RobustTradingService.

(** ** [stock_service.get_stock_info] of [backend/app/stocks/robust_services.py]
    (lines 21-54), the oracle of the portfolio and competition services

    The [StockInfo] model coerces the [float] price to a [Decimal] through
    its [str] and refuses one that is not finite; the handler turns that
    into [None]. *)
Definition robust_get_stock_info (get_live_price : string -> option LiveData.t)
    (symbol : string) : option StockInfo.t :=
  match get_live_price symbol with
  | None => None
  | Some live_data =>
      match Float64.to_dec (LiveData.current_price live_data) with
      | Some d =>
          Some (StockInfo.mk (LiveData.symbol live_data) (LiveData.name live_data)
                             (Some d))
      | None => None
      end
  end.

(** A live oracle that quotes every symbol at [price]. *)
Definition live_quote (price : float) (symbol : string) : option LiveData.t :=
  Some (LiveData.mk (upper symbol) "Apple Inc." price).

(** The live quotes are not negative. *)
Definition live_quotes_nonneg (get_live_price : string -> option LiveData.t) : Prop :=
  forall symbol live_data d,
    get_live_price symbol = Some live_data ->
    Float64.to_dec (LiveData.current_price live_data) = Some d ->
    0 <= Dec.coef d.

(** The databases the robust executor leads to, by validated orders at
    quotes that are finite and not negative. *)
Inductive robust_reachable (db0 : Database) : Database -> Prop :=
| robust_reachable_init : robust_reachable db0 db0
| robust_reachable_trade get_live_price db portfolio_id trade_request :
    robust_reachable db0 db ->
    quotes_finite get_live_price ->
    live_quotes_nonneg get_live_price ->
    TradeRequest.valid trade_request ->
    robust_reachable db0
      (snd (RobustTradingService.execute_trade get_live_price db portfolio_id
                                               trade_request)).

(** * Facts about the decimal arithmetic *)

Lemma pow10_pos (k : Z) : 0 <= k -> 0 < 10 ^ k.
Proof. intros Hk. apply Z.pow_pos_nonneg; lia. Qed.

Lemma pow10_split (a b : Z) : 0 <= a -> 0 <= b -> 10 ^ (a + b) = 10 ^ a * 10 ^ b.
Proof. intros. apply Z.pow_add_r; lia. Qed.

Lemma ndigits_aux_spec (fuel : nat) :
  forall n, 0 < n -> n < 10 ^ (Z.of_nat fuel + 1) ->
  1 <= Dec.ndigits_aux fuel n /\
  10 ^ (Dec.ndigits_aux fuel n - 1) <= n < 10 ^ Dec.ndigits_aux fuel n.
Proof.
  induction fuel as [|fuel IH]; intros n Hpos Hlt.
  - simpl in *. change (10 ^ 1) with 10 in *. change (10 ^ (1 - 1)) with 1. lia.
  - cbn [Dec.ndigits_aux]. destruct (Z.ltb_spec n 10) as [Hs|Hs].
    + change (10 ^ 1) with 10. change (10 ^ (1 - 1)) with 1. lia.
    + assert (Hq : 0 < n / 10) by (apply Z.div_str_pos; lia).
      assert (Hq' : n / 10 < 10 ^ (Z.of_nat fuel + 1)).
      { apply Z.div_lt_upper_bound; [lia|].
        replace (Z.of_nat (S fuel) + 1) with (1 + (Z.of_nat fuel + 1)) in Hlt by lia.
        rewrite pow10_split in Hlt by lia. change (10 ^ 1) with 10 in Hlt. lia. }
      destruct (IH _ Hq Hq') as (H1 & H2 & H3).
      set (k := Dec.ndigits_aux fuel (n / 10)) in *.
      replace (1 + k - 1) with (1 + (k - 1)) by lia.
      rewrite !pow10_split by lia. change (10 ^ 1) with 10.
      pose proof (Z.div_mod n 10 ltac:(lia)) as Hdm.
      pose proof (Z.mod_pos_bound n 10 ltac:(lia)) as Hmb.
      split; [lia|]. split; lia.
Qed.

Lemma ndigits_spec (n : Z) :
  0 < n ->
  1 <= Dec.ndigits n /\ 10 ^ (Dec.ndigits n - 1) <= n < 10 ^ Dec.ndigits n.
Proof.
  intros Hpos. unfold Dec.ndigits. apply ndigits_aux_spec; [exact Hpos|].
  rewrite Z2Nat.id by apply Z.log2_nonneg.
  destruct (Z.log2_spec n Hpos) as [_ Hup].
  eapply Z.lt_le_trans; [exact Hup|].
  replace (Z.succ (Z.log2 n)) with (Z.log2 n + 1) by lia.
  apply Z.pow_le_mono_l. lia.
Qed.


Lemma round_half_even_bounds (n d : Z) :
  0 <= n -> 0 < d -> n / d <= Dec.round_half_even n d <= n / d + 1.
Proof.
  intros Hn Hd. unfold Dec.round_half_even.
  destruct (2 * (n mod d) <? d); [lia|].
  destruct (2 * (n mod d) =? d); [destruct (Z.even (n / d))|]; lia.
Qed.



Lemma fix_nonneg (d : Dec.t) : 0 <= Dec.coef d -> 0 <= Dec.coef (Dec.fix_ d).
Proof.
  intros Hc. unfold Dec.fix_.
  destruct ((Z.abs (Dec.coef d) =? 0) || _); [assumption|].
  set (a := Z.abs (Dec.coef d)). set (drop := Dec.ndigits a - Dec.prec).
  destruct (Z.eqb_spec (Dec.round_half_even a (10 ^ drop)) (10 ^ Dec.prec)); cbn [Dec.coef].
  - apply Z.mul_nonneg_nonneg; [lia|]. apply Z.pow_nonneg. lia.
  - apply Z.mul_nonneg_nonneg; [lia|].
    destruct (Z.le_gt_cases 0 drop).
    + pose proof (round_half_even_bounds a (10 ^ drop) ltac:(lia) (pow10_pos _ H)).
      pose proof (Z.div_pos a (10 ^ drop) ltac:(lia) (pow10_pos _ H)). lia.
    + rewrite (Z.pow_neg_r 10 drop) by lia. unfold Dec.round_half_even.
      rewrite Z.div_0_r, Z.mod_0_r. 
      destruct (2 * a <? 0); [lia|]. destruct (2 * a =? 0); simpl; lia.
Qed.

(** ** The value of a decimal *)

Lemma ten_nonzero : ~ (10 # 1 == 0)%Q.
Proof. discriminate. Qed.

Lemma ten_pow_pos (e : Z) : (0 < (10 # 1) ^ e)%Q.
Proof. apply Qpower_0_lt. reflexivity. Qed.

Lemma inject_pow10 (k : Z) : 0 <= k -> (inject_Z (10 ^ k) == (10 # 1) ^ k)%Q.
Proof. intros Hk. rewrite Zpower_Qpower by exact Hk. reflexivity. Qed.

Lemma value_mk (c e : Z) : Dec.value (Dec.mk c e) = (inject_Z c * (10 # 1) ^ e)%Q.
Proof. reflexivity. Qed.

Lemma value_scale (c e k : Z) :
  0 <= k -> (Dec.value (Dec.mk (c * 10 ^ k) (e - k)) == Dec.value (Dec.mk c e))%Q.
Proof.
  intros Hk. rewrite !value_mk, inject_Z_mult, inject_pow10 by exact Hk.
  rewrite <- Qmult_assoc, <- Qpower_plus by exact ten_nonzero.
  replace (k + (e - k)) with e by lia. reflexivity.
Qed.


Lemma value_neg (a : Dec.t) : (Dec.value (Dec.neg a) == - Dec.value a)%Q.
Proof.
  unfold Dec.neg, Dec.value. cbn [Dec.coef Dec.expo].
  rewrite inject_Z_opp. ring.
Qed.

Lemma value_mul_exact (a b : Dec.t) :
  (Dec.value (Dec.mul_exact a b) == Dec.value a * Dec.value b)%Q.
Proof.
  unfold Dec.mul_exact, Dec.value. cbn [Dec.coef Dec.expo].
  rewrite inject_Z_mult, Qpower_plus by exact ten_nonzero. ring.
Qed.

Lemma value_aligned (a : Dec.t) (e : Z) :
  e <= Dec.expo a ->
  (inject_Z (Dec.coef a * 10 ^ (Dec.expo a - e)) * (10 # 1) ^ e == Dec.value a)%Q.
Proof.
  intros He.
  pose proof (value_scale (Dec.coef a) (Dec.expo a) (Dec.expo a - e) ltac:(lia)) as H.
  rewrite !value_mk in H. replace (Dec.expo a - (Dec.expo a - e)) with e in H by lia.
  exact H.
Qed.

Lemma value_add_exact (a b : Dec.t) :
  (Dec.value (Dec.add_exact a b) == Dec.value a + Dec.value b)%Q.
Proof.
  unfold Dec.add_exact. rewrite value_mk, inject_Z_plus, Qmult_plus_distr_l.
  rewrite (value_aligned a), (value_aligned b) by lia. reflexivity.
Qed.

Lemma value_sub_exact (a b : Dec.t) :
  (Dec.value (Dec.sub_exact a b) == Dec.value a - Dec.value b)%Q.
Proof.
  unfold Dec.sub_exact. rewrite value_add_exact, value_neg. reflexivity.
Qed.

Lemma value_nonneg (a : Dec.t) : (0 <= Dec.value a)%Q <-> 0 <= Dec.coef a.
Proof.
  unfold Dec.value. pose proof (ten_pow_pos (Dec.expo a)) as Hp. split.
  - intros H. destruct (Z.le_gt_cases 0 (Dec.coef a)) as [|Hneg]; [assumption|exfalso].
    assert (inject_Z (Dec.coef a) < 0)%Q as Hlt
      by (rewrite (Zlt_Qlt (Dec.coef a) 0) in Hneg; exact Hneg).
    assert (inject_Z (Dec.coef a) * (10 # 1) ^ Dec.expo a < 0 * (10 # 1) ^ Dec.expo a)%Q
      by (apply Qmult_lt_compat_r; assumption).
    lra.
  - intros H. apply Qmult_le_0_compat; [|lra].
    rewrite (Zle_Qle 0 (Dec.coef a)) in H. exact H.
Qed.

Lemma compare_value (a b : Dec.t) :
  Dec.compare a b = (Dec.value a ?= Dec.value b)%Q.
Proof.
  unfold Dec.compare. set (e := Z.min (Dec.expo a) (Dec.expo b)).
  set (x := Dec.coef a * 10 ^ (Dec.expo a - e)).
  set (y := Dec.coef b * 10 ^ (Dec.expo b - e)).
  assert (Ha : (inject_Z x * (10 # 1) ^ e == Dec.value a)%Q)
    by (apply value_aligned; lia).
  assert (Hb : (inject_Z y * (10 # 1) ^ e == Dec.value b)%Q)
    by (apply value_aligned; lia).
  rewrite <- Ha, <- Hb. pose proof (ten_pow_pos e) as Hp. symmetry.
  destruct (Z.compare_spec x y) as [Heq|Hlt|Hgt].
  - apply Qeq_alt. rewrite Heq. reflexivity.
  - apply Qlt_alt. apply Qmult_lt_compat_r; [exact Hp|]. rewrite <- Zlt_Qlt. exact Hlt.
  - apply Qgt_alt. apply Qmult_lt_compat_r; [exact Hp|]. rewrite <- Zlt_Qlt. exact Hgt.
Qed.

Lemma ltb_value (a b : Dec.t) :
  Dec.ltb a b = true <-> (Dec.value a < Dec.value b)%Q.
Proof.
  unfold Dec.ltb. rewrite compare_value, Qlt_alt.
  destruct (Dec.value a ?= Dec.value b)%Q; split; congruence.
Qed.

Lemma ltb_false_value (a b : Dec.t) :
  Dec.ltb a b = false <-> (Dec.value b <= Dec.value a)%Q.
Proof.
  pose proof (ltb_value a b) as H. split.
  - intros Hf. apply Qnot_lt_le. intros Hlt. apply H in Hlt. congruence.
  - intros Hle. destruct (Dec.ltb a b); [|reflexivity].
    exfalso. apply (Qle_not_lt _ _ Hle). apply H. reflexivity.
Qed.

(** ** Rounding to the context precision *)

Lemma fix_value_form (d : Dec.t) :
  Dec.fix_ d = d \/
  (let a := Z.abs (Dec.coef d) in
   let drop := Dec.ndigits a - Dec.prec in
   0 < a /\ 0 < drop /\ 10 ^ (Dec.prec + drop - 1) <= a < 10 ^ (Dec.prec + drop) /\
   (Dec.value (Dec.fix_ d) ==
    inject_Z (Z.sgn (Dec.coef d) * Dec.round_half_even a (10 ^ drop))
    * (10 # 1) ^ (Dec.expo d + drop))%Q).
Proof.
  unfold Dec.fix_.
  destruct (Z.eqb_spec (Z.abs (Dec.coef d)) 0) as [|Hnz]; [left; reflexivity|].
  cbn [orb].
  destruct (Z.leb_spec (Dec.ndigits (Z.abs (Dec.coef d))) Dec.prec) as [|Hgt];
    [left; reflexivity|].
  right. cbv zeta. set (a := Z.abs (Dec.coef d)) in *.
  set (drop := Dec.ndigits a - Dec.prec).
  assert (Ha : 0 < a) by (unfold a in *; lia).
  destruct (ndigits_spec a Ha) as (_ & Hlo & Hhi).
  replace (Dec.ndigits a) with (Dec.prec + drop) in Hlo, Hhi by (unfold drop; lia).
  repeat split; try lia; try assumption.
  destruct (Z.eqb_spec (Dec.round_half_even a (10 ^ drop)) (10 ^ Dec.prec)) as [Hc|Hc].
  - rewrite Hc.
    pose proof (value_scale (Z.sgn (Dec.coef d) * 10 ^ (Dec.prec - 1))
                  (Dec.expo d + drop + 1) 1 ltac:(lia)) as Hs.
    replace (Dec.expo d + drop + 1 - 1) with (Dec.expo d + drop) in Hs by lia.
    rewrite <- Hs, value_mk.
    replace (Z.sgn (Dec.coef d) * 10 ^ (Dec.prec - 1) * 10 ^ 1)
      with (Z.sgn (Dec.coef d) * 10 ^ Dec.prec); [reflexivity|].
    unfold Dec.prec. change (10 ^ 28) with (10 ^ (28 - 1) * 10 ^ 1). ring.
  - rewrite value_mk. reflexivity.
Qed.

Lemma fix_value_le (d : Dec.t) :
  0 <= Dec.coef d -> (Dec.value (Dec.fix_ d) <= 2 * Dec.value d)%Q.
Proof.
  intros Hc. destruct (fix_value_form d) as [->|H].
  - apply value_nonneg in Hc. lra.
  - cbv zeta in H. destruct H as (Ha & Hdrop & [Hlo Hhi] & Hv). rewrite Hv.
    rewrite (Z.abs_eq _ Hc) in *. rewrite (Z.sgn_pos _ Ha), Z.mul_1_l.
    set (a := Dec.coef d) in *. set (drop := Dec.ndigits a - Dec.prec) in *.
    set (q := Dec.round_half_even a (10 ^ drop)).
    pose proof (pow10_pos drop ltac:(lia)) as Hp.
    pose proof (round_half_even_bounds a (10 ^ drop) ltac:(lia) Hp) as [_ Hq].
    fold q in Hq.
    assert (10 ^ (Dec.prec - 1) <= a / 10 ^ drop) as Hbig.
    { apply Z.div_le_lower_bound; [exact Hp|].
      rewrite <- pow10_split by (unfold Dec.prec; lia).
      replace (drop + (Dec.prec - 1)) with (Dec.prec + drop - 1) by lia. exact Hlo. }
    assert (0 < 10 ^ (Dec.prec - 1)) by (apply pow10_pos; unfold Dec.prec; lia).
    pose proof (Z.mul_div_le a (10 ^ drop) Hp) as Hmd.
    assert (q * 10 ^ drop <= 2 * a) as Hle by nia.
    pose proof (value_scale q (Dec.expo d + drop) drop ltac:(lia)) as Hs.
    replace (Dec.expo d + drop - drop) with (Dec.expo d) in Hs by lia.
    rewrite !value_mk in Hs. rewrite <- Hs. unfold Dec.value. fold a.
    rewrite Qmult_assoc. apply Qmult_le_compat_r.
    + change 2%Q with (inject_Z 2). rewrite <- inject_Z_mult, <- Zle_Qle. exact Hle.
    + apply Qlt_le_weak, ten_pow_pos.
Qed.



Lemma representable_fits (d : Dec.t) : Dec.fits d -> Dec.representable (Dec.value d).
Proof. intros H. exists (Dec.coef d), (Dec.expo d). split; [exact H|reflexivity]. Qed.

Lemma representable_eq (x y : Q) :
  (x == y)%Q -> Dec.representable x -> Dec.representable y.
Proof.
  intros Hxy (c & e & Hc & Hx). exists c, e. split; [exact Hc|].
  rewrite <- Hxy. exact Hx.
Qed.




#[global] Instance representable_proper : Proper (Qeq ==> iff) Dec.representable.
Proof.
  intros x y Hxy. split; apply representable_eq; [exact Hxy|symmetry; exact Hxy].
Qed.

(** ** Division *)






(** * Facts about the session and the tables *)

Lemma where_spec {A} (p : A -> bool) (rows : list A) :
  forall i j r,
    (j, r) ∈ where_ p rows i <->
    (i <= j)%nat /\ rows !! (j - i)%nat = Some r /\ p r = true.
Proof.
  induction rows as [|x rows IH]; intros i j r; cbn [where_].
  - split; [intros H; inversion H|intros (_ & H & _); discriminate].
  - assert (Htail : (j, r) ∈ where_ p rows (S i) <->
                    (i < j)%nat /\ (x :: rows) !! (j - i)%nat = Some r /\ p r = true).
    { rewrite IH. split.
      - intros (Hle & Hl & Hp). split; [lia|]. split; [|exact Hp].
        replace (j - i)%nat with (S (j - S i)) by lia. exact Hl.
      - intros (Hlt & Hl & Hp). split; [lia|]. split; [|exact Hp].
        replace (j - i)%nat with (S (j - S i)) in Hl by lia. exact Hl. }
    destruct (p x) eqn:Hpx.
    + rewrite elem_of_cons, Htail. split.
      * intros [[= -> ->]|(Hlt & Hl & Hp)].
        -- split; [lia|]. rewrite Nat.sub_diag. split; [reflexivity|exact Hpx].
        -- split; [lia|]. split; assumption.
      * intros (Hle & Hl & Hp). destruct (decide (i = j)) as [->|Hne].
        -- left. rewrite Nat.sub_diag in Hl. cbn in Hl. congruence.
        -- right. split; [lia|]. split; assumption.
    + rewrite Htail. split.
      * intros (Hlt & Hl & Hp). split; [lia|]. split; assumption.
      * intros (Hle & Hl & Hp). destruct (decide (i = j)) as [->|Hne].
        -- rewrite Nat.sub_diag in Hl. cbn in Hl. congruence.
        -- split; [lia|]. split; assumption.
Qed.

Lemma where_singleton {A} (p : A -> bool) (rows : list A) (i : nat) (r : A) :
  where_ p rows 0 = [(i, r)] ->
  rows !! i = Some r /\ p r = true /\
  (forall j r', rows !! j = Some r' -> p r' = true -> j = i).
Proof.
  intros H.
  assert (Hin : (i, r) ∈ where_ p rows 0) by (rewrite H; apply list_elem_of_here).
  apply where_spec in Hin as (_ & Hl & Hp). rewrite Nat.sub_0_r in Hl.
  split; [exact Hl|]. split; [exact Hp|].
  intros j r' Hj Hp'.
  assert (Hin' : (j, r') ∈ where_ p rows 0).
  { apply where_spec. rewrite Nat.sub_0_r. split; [lia|]. split; assumption. }
  rewrite H in Hin'. apply list_elem_of_singleton in Hin'. congruence.
Qed.

Lemma where_nil {A} (p : A -> bool) (rows : list A) :
  where_ p rows 0 = [] -> forall r, r ∈ rows -> p r = false.
Proof.
  intros H r Hr. apply list_elem_of_lookup in Hr as [j Hj].
  destruct (p r) eqn:Hp; [|reflexivity].
  assert (Hin : (j, r) ∈ where_ p rows 0).
  { apply where_spec. rewrite Nat.sub_0_r. split; [lia|]. split; assumption. }
  rewrite H in Hin. inversion Hin.
Qed.

(** ** Signs of the amounts *)

Lemma mul_nonneg (a b : Dec.t) :
  0 <= Dec.coef a -> 0 <= Dec.coef b -> 0 <= Dec.coef (Dec.mul a b).
Proof.
  intros Ha Hb. apply fix_nonneg. cbn [Dec.mul_exact Dec.coef].
  apply Z.mul_nonneg_nonneg; assumption.
Qed.

Lemma add_nonneg (a b : Dec.t) :
  0 <= Dec.coef a -> 0 <= Dec.coef b -> 0 <= Dec.coef (Dec.add a b).
Proof.
  intros Ha Hb. apply fix_nonneg. apply value_nonneg.
  rewrite value_add_exact. apply value_nonneg in Ha, Hb. lra.
Qed.

Lemma sub_nonneg (a b : Dec.t) :
  (Dec.value b <= Dec.value a)%Q -> 0 <= Dec.coef (Dec.sub a b).
Proof.
  intros H. apply fix_nonneg. apply value_nonneg. rewrite value_sub_exact. lra.
Qed.

Lemma brokerage_rate_value : (Dec.value brokerage_rate == 5 # 10000)%Q.
Proof. reflexivity. Qed.

(** The brokerage never exceeds the amount it is charged on. *)
Lemma fees_le (trade_value : Dec.t) :
  0 <= Dec.coef trade_value ->
  (Dec.value (Dec.mul trade_value brokerage_rate) <= Dec.value trade_value)%Q.
Proof.
  intros H. unfold Dec.mul.
  pose proof (fix_value_le (Dec.mul_exact trade_value brokerage_rate)) as Hle.
  cbn [Dec.mul_exact Dec.coef brokerage_rate] in Hle.
  specialize (Hle ltac:(lia)).
  change (Dec.mk (Dec.coef trade_value * 5) (Dec.expo trade_value + Dec.expo brokerage_rate))
    with (Dec.mul_exact trade_value brokerage_rate) in Hle.
  rewrite value_mul_exact, brokerage_rate_value in Hle.
  apply value_nonneg in H. lra.
Qed.

Ltac unfold_session :=
  cbv [execute_trade try_except execute_trade_body _execute_buy_order
       _execute_sell_order _update_stock_cache select_portfolio select_position
       select_stock scalar_one_or_none set_portfolio set_position add_position
       delete_position add_trade set_stock add_stock decimal_div decimal_of_str
       portfolio_rows position_rows
       mbind M_bind bind mret M_ret ret raise gets modify commit
       pending committed] in *;
  cbn [portfolios positions trades stocks] in *.

Ltac case_step :=
  match goal with
  | H : context [match ?x with _ => _ end] |- _ =>
      lazymatch x with
      | context [match _ with _ => _ end] => fail
      | _ => destruct x eqn:?
      end
  | H : context [if ?x then _ else _] |- _ =>
      lazymatch x with
      | context [match _ with _ => _ end] => fail
      | context [if _ then _ else _] => fail
      | _ => destruct x eqn:?
      end
  end.

Ltac closes := first [reflexivity | eassumption].

Ltac run_cases :=
  unfold_session;
  repeat (case_step; cbn [pending committed portfolios positions trades stocks] in * );
  simplify_eq.

(** ** The outcome of an order *)

Lemma failure_leaves_database o db pid req resp db' :
  execute_trade o db pid req = (resp, db') ->
  TradeResponse.success resp = false -> db' = db.
Proof.
  intros H Hs. run_cases; try reflexivity; discriminate.
Qed.


Lemma delete_insert_same {A} (l : list A) (i : nat) (x : A) :
  delete i (<[i := x]> l) = delete i l.
Proof.
  revert i. induction l as [|y l IH]; intros [|i]; cbn; try reflexivity.
  f_equal. apply IH.
Qed.

(** What an executed order does to the database. *)
Lemma execute_trade_success o db pid req resp db' :
  execute_trade o db pid req = (resp, db') ->
  TradeResponse.success resp = true ->
  exists info p ref pf,
    o (TradeRequest.symbol req) = Some info /\
    StockInfo.current_price info = Some p /\
    portfolio_rows pid db = [(ref, pf)] /\
    let symbol := upper (TradeRequest.symbol req) in
    let q := TradeRequest.quantity req in
    let gross := Dec.mul p (Dec.of_Z q) in
    let fee := Dec.mul gross brokerage_rate in
    let cash := Portfolio.cash_balance pf in
    TradeResponse.fees resp = Some (Float64.of_dec fee) /\
    match TradeRequest.order_type req with
    | BUY =>
        Dec.ltb cash (Dec.add gross fee) = false /\
        portfolios db' =
          <[ref := Portfolio.mk (Portfolio.id pf) (Dec.sub cash (Dec.add gross fee))]>
            (portfolios db) /\
        (exists k, trades db' =
           trades db ++ [Trade.mk k (Portfolio.id pf) symbol "buy" q p gross fee COMPLETED]) /\
        ((position_rows (Portfolio.id pf) symbol db = [] /\
          positions db' = positions db ++ [Position.mk (Portfolio.id pf) symbol q p])
         \/
         (exists i pos average_cost,
            position_rows (Portfolio.id pf) symbol db = [(i, pos)] /\
            Dec.div (Dec.add (Dec.mul (Position.average_cost pos)
                                      (Dec.of_Z (Position.quantity pos))) gross)
                    (Dec.of_Z (Position.quantity pos + q)) = Some average_cost /\
            positions db' =
              <[i := Position.mk (Position.portfolio_id pos) (Position.symbol pos)
                                 (Position.quantity pos + q) average_cost]>
                (positions db)))
    | SELL =>
        exists i pos,
          position_rows (Portfolio.id pf) symbol db = [(i, pos)] /\
          q <= Position.quantity pos /\
          portfolios db' =
            <[ref := Portfolio.mk (Portfolio.id pf) (Dec.add cash (Dec.sub gross fee))]>
              (portfolios db) /\
          (exists k, trades db' =
             trades db ++ [Trade.mk k (Portfolio.id pf) symbol "sell" q p gross fee COMPLETED]) /\
          stocks db' = stocks db /\
          positions db' =
            (if Position.quantity pos - q =? 0 then delete i (positions db)
             else <[i := Position.mk (Position.portfolio_id pos) (Position.symbol pos)
                                     (Position.quantity pos - q)
                                     (Position.average_cost pos)]> (positions db))
    end.
Proof.
  intros H Hs. run_cases; try discriminate.
  all: eexists _, _, _, _; split; [closes|]; split; [closes|];
       split; [closes|];
       cbn [TradeResponse.fees portfolios positions trades stocks].
  all: split; [reflexivity|].
  1-3: (split; [assumption|]; split; [reflexivity|]; split; [eexists; reflexivity|];
        left; split; closes).
  1-3: (split; [assumption|]; split; [reflexivity|]; split; [eexists; reflexivity|];
        right; eexists _, _, _; split; [closes|]; split; closes).
  all: eexists _, _; split; [closes|]; split; [lia|]; split; [reflexivity|];
       split; [eexists; reflexivity|]; split; [reflexivity|].
  all: try match goal with H : (_ =? 0) = _ |- _ => rewrite H end.
  - apply delete_insert_same.
  - reflexivity.
Qed.

(** One order keeps the balances at or above zero and the positions above
    zero. *)
Lemma trade_step_invariants o db pid req resp db' :
  execute_trade o db pid req = (resp, db') ->
  quotes_nonneg o -> TradeRequest.valid req ->
  balances_nonneg db -> quantities_positive db ->
  balances_nonneg db' /\ quantities_positive db'.
Proof.
  intros H Ho Hv Hb Hq.
  destruct (TradeResponse.success resp) eqn:Hs;
    [|rewrite (failure_leaves_database _ _ _ _ _ _ H Hs); split; assumption].
  destruct (execute_trade_success _ _ _ _ _ _ H Hs)
    as (info & p & ref & pf & Hinfo & Hp & Hrows & _ & Hcase).
  cbv zeta in Hcase. unfold balances_nonneg, quantities_positive in *.
  unfold TradeRequest.valid in Hv. pose proof (Ho _ _ _ Hinfo Hp) as Hprice.
  apply where_singleton in Hrows as (Hpf & _ & _).
  pose proof (proj1 (Forall_lookup _ _) Hb _ _ Hpf) as Hcash. cbn beta in Hcash.
  destruct (TradeRequest.order_type req).
  - destruct Hcase as (Hlt & -> & _ & Hpos). split.
    + apply Forall_insert; [exact Hb|]. cbn [Portfolio.cash_balance].
      apply value_nonneg, sub_nonneg, ltb_false_value. exact Hlt.
    + destruct Hpos as [[_ ->]|(i & pos & avg & Hrow & _ & ->)].
      * apply Forall_app. split; [exact Hq|]. constructor; [|constructor].
        cbn [Position.quantity]. lia.
      * apply where_singleton in Hrow as (Hl & _ & _).
        pose proof (proj1 (Forall_lookup _ _) Hq _ _ Hl) as Hold. cbn beta in Hold.
        apply Forall_insert; [exact Hq|]. cbn [Position.quantity]. lia.
  - destruct Hcase as (i & pos & Hrow & Hle & -> & _ & _ & ->). split.
    + apply Forall_insert; [exact Hb|]. cbn [Portfolio.cash_balance].
      apply value_nonneg, add_nonneg; [apply value_nonneg; exact Hcash|].
      apply sub_nonneg, fees_le, mul_nonneg; cbn [Dec.of_Z Dec.coef]; lia.
    + destruct (Z.eqb_spec (Position.quantity pos - TradeRequest.quantity req) 0).
      * apply Forall_delete. exact Hq.
      * apply Forall_insert; [exact Hq|]. cbn [Position.quantity]. lia.
Qed.




(** C2. A buy is refused for insufficient funds exactly when the cash
    balance is below gross plus fee; a sell is refused for insufficient
    shares exactly when the symbol has no position or the position holds
    fewer shares than asked; and an order that fails, for whichever reason,
    answers with a failure and leaves the whole database as it was. *)
Theorem execute_trade_rejections
    (get_stock_info : string -> option StockInfo.t) (db db' : Database)
    (portfolio_id : Z) (trade_request : TradeRequest.t) (resp : TradeResponse.t) :
  execute_trade get_stock_info db portfolio_id trade_request = (resp, db') ->
  (TradeResponse.success resp = false -> db' = db) /\
  (get_stock_info (TradeRequest.symbol trade_request) = None ->
   TradeResponse.success resp = false) /\
  (forall info p ref pf,
     get_stock_info (TradeRequest.symbol trade_request) = Some info ->
     StockInfo.current_price info = Some p ->
     portfolio_rows portfolio_id db = [(ref, pf)] ->
     let symbol := upper (TradeRequest.symbol trade_request) in
     let q := TradeRequest.quantity trade_request in
     let gross := Dec.mul p (Dec.of_Z q) in
     let fee := Dec.mul gross brokerage_rate in
     let cash := Portfolio.cash_balance pf in
     match TradeRequest.order_type trade_request with
     | BUY =>
         resp = TradeResponse.failure (InsufficientFunds (Dec.add gross fee) cash)
         <-> (Dec.value cash < Dec.value (Dec.add gross fee))%Q
     | SELL =>
         (exists available,
            resp = TradeResponse.failure (InsufficientShares q available))
         <-> (position_rows (Portfolio.id pf) symbol db = [] \/
              exists i pos,
                position_rows (Portfolio.id pf) symbol db = [(i, pos)] /\
                Position.quantity pos < q)
     end).
Proof.
  intros H. split; [apply (failure_leaves_database _ _ _ _ _ _ H)|]. split.
  - intros Ho. revert H. unfold_session. rewrite Ho. intros [= <- _]. reflexivity.
  - intros info p ref pf Ho Hp Hrows. cbv zeta.
    revert H. unfold_session. rewrite Ho, Hp, Hrows.
    destruct (TradeRequest.order_type trade_request).
    + destruct (Dec.ltb _ _) eqn:Hlt.
      * intros [= <- _]. split; [intros _; apply ltb_value; exact Hlt|reflexivity].
      * intros H. apply ltb_false_value in Hlt. split.
        -- intros ->. exfalso. run_cases; discriminate.
        -- intros Hcontra. exfalso. apply (Qlt_not_le _ _ Hcontra). exact Hlt.
    + destruct (where_ _ (positions db) 0) as [|[i pos] [|more rest]] eqn:Hpos.
      * intros [= <- _]. split; [intros _; left; reflexivity|intros _; eexists; reflexivity].
      * destruct (Z.ltb_spec (Position.quantity pos) (TradeRequest.quantity trade_request))
          as [Hlt|Hge].
        -- intros [= <- _]. split; [|intros _; eexists; reflexivity].
           intros _. right. exists i, pos. split; [reflexivity|exact Hlt].
        -- intros H. split.
           ++ intros [available ->]. exfalso. run_cases; discriminate.
           ++ intros [Hnil|(i' & pos' & Heq & Hlt)]; [discriminate|].
              injection Heq as <- <-. lia.
      * intros [= <- _]. split.
        -- intros [available Heq]. discriminate.
        -- intros [Hnil|(i' & pos' & Heq & _)]; discriminate.
Qed.

(** A buy of 200000 shares at 150, which a balance of 100000.00 does not
    cover: it is refused and nothing changes. *)
Lemma execute_trade_rejections_witness :
  let r := execute_trade (quote (Dec.mk 150 0)) fresh_db 1 (buy "AAPL" 200000) in
  fst r = TradeResponse.failure
            (InsufficientFunds (Dec.mk 300150000000 (-4)) (Dec.mk 10000000 (-2)))
  /\ snd r = fresh_db.
Proof.
  cbv zeta.
  destruct (execute_trade_rejections (quote (Dec.mk 150 0)) fresh_db _ 1
              (buy "AAPL" 200000) _ (surjective_pairing _)) as (Hsame & _ & Hcase).
  specialize (Hcase _ _ _ _ eq_refl eq_refl eq_refl). cbv zeta in Hcase.
  assert (Hfail : fst (execute_trade (quote (Dec.mk 150 0)) fresh_db 1 (buy "AAPL" 200000))
                  = TradeResponse.failure
                      (InsufficientFunds (Dec.mk 300150000000 (-4)) (Dec.mk 10000000 (-2)))).
  { apply Hcase. vm_compute. reflexivity. }
  split; [exact Hfail|]. apply Hsame. rewrite Hfail. reflexivity.
Defined.

Lemma where_delete_singleton {A} (p : A -> bool) (rows : list A) (i : nat) (r : A) :
  where_ p rows 0 = [(i, r)] -> where_ p (delete i rows) 0 = [].
Proof.
  intros H. apply where_singleton in H as (Hl & Hp & Huniq).
  destruct (where_ p (delete i rows) 0) as [|[j r'] rest] eqn:Hd; [reflexivity|exfalso].
  assert (Hin : (j, r') ∈ where_ p (delete i rows) 0)
    by (rewrite Hd; apply list_elem_of_here).
  apply where_spec in Hin as (_ & Hj & Hp'). rewrite Nat.sub_0_r in Hj.
  destruct (decide (j < i)%nat) as [Hlt|Hge].
  - rewrite list_lookup_delete_lt in Hj by exact Hlt.
    specialize (Huniq _ _ Hj Hp'). lia.
  - rewrite list_lookup_delete_ge in Hj by lia.
    specialize (Huniq _ _ Hj Hp'). lia.
Qed.

(** C3. After any run of validated orders from a database whose balances
    are not negative and whose positions are all positive, every cash
    balance is still at least 0 and every position row still holds more
    than 0 shares; and a sell of exactly the shares held deletes the
    position row. *)
Theorem trade_invariants (db0 db : Database) :
  balances_nonneg db0 -> quantities_positive db0 -> reachable db0 db ->
  balances_nonneg db /\ quantities_positive db /\
  (forall get_stock_info portfolio_id trade_request ref pf i pos,
     let symbol := upper (TradeRequest.symbol trade_request) in
     let r := execute_trade get_stock_info db portfolio_id trade_request in
     TradeRequest.order_type trade_request = SELL ->
     TradeResponse.success (fst r) = true ->
     portfolio_rows portfolio_id db = [(ref, pf)] ->
     position_rows (Portfolio.id pf) symbol db = [(i, pos)] ->
     Position.quantity pos = TradeRequest.quantity trade_request ->
     positions (snd r) = delete i (positions db) /\
     position_rows (Portfolio.id pf) symbol (snd r) = []).
Proof.
  intros Hb0 Hq0 Hreach.
  assert (Hinv : balances_nonneg db /\ quantities_positive db).
  { induction Hreach as [|o db pid req Hreach IH Ho Hv]; [split; assumption|].
    destruct IH as [Hb Hq].
    eapply trade_step_invariants; eauto using surjective_pairing. }
  destruct Hinv as [Hb Hq]. split; [exact Hb|]. split; [exact Hq|].
  intros o pid req ref pf i pos symbol r Hside Hs Hrows Hpos Hqty.
  destruct (execute_trade_success o db pid req _ _ (surjective_pairing _) Hs)
    as (info & p & ref' & pf' & _ & _ & Hrows' & _ & Hcase).
  rewrite Hrows in Hrows'. injection Hrows' as <- <-.
  cbv zeta in Hcase. rewrite Hside in Hcase.
  destruct Hcase as (i' & pos' & Hpos' & _ & _ & _ & _ & Hpositions).
  fold symbol in Hpos'. rewrite Hpos in Hpos'. injection Hpos' as <- <-.
  rewrite Hqty, Z.sub_diag in Hpositions. cbn [Z.eqb] in Hpositions.
  fold r in Hpositions. split; [exact Hpositions|].
  unfold position_rows in *. rewrite Hpositions.
  eapply where_delete_singleton. exact Hpos.
Qed.

Lemma quote_nonneg (price : Dec.t) : 0 <= Dec.coef price -> quotes_nonneg (quote price).
Proof. intros Hp s info p [= <-] [= <-]. exact Hp. Qed.

(** Ten shares bought at 150 and sold again at 160: the balances and
    quantities stay in range and the position row is gone. *)
Lemma trade_invariants_witness :
  let db := snd (execute_trade (quote (Dec.mk 150 0)) fresh_db 1 (buy "AAPL" 10)) in
  balances_nonneg db /\ quantities_positive db /\
  positions (snd (execute_trade (quote (Dec.mk 160 0)) db 1 (sell "AAPL" 10))) = [].
Proof.
  cbv zeta.
  assert (Hb0 : balances_nonneg fresh_db).
  { repeat constructor. apply value_nonneg. cbn. lia. }
  assert (Hq0 : quantities_positive fresh_db) by constructor.
  assert (Hreach : reachable fresh_db
            (snd (execute_trade (quote (Dec.mk 150 0)) fresh_db 1 (buy "AAPL" 10)))).
  { apply reachable_trade; [apply reachable_init| |unfold TradeRequest.valid; cbn; lia].
    apply quote_nonneg. cbn. lia. }
  destruct (trade_invariants _ _ Hb0 Hq0 Hreach) as (Hb & Hq & Hdel).
  split; [exact Hb|]. split; [exact Hq|].
  set (db := snd (execute_trade (quote (Dec.mk 150 0)) fresh_db 1 (buy "AAPL" 10))) in *.
  assert (Hs : TradeResponse.success
                 (fst (execute_trade (quote (Dec.mk 160 0)) db 1 (sell "AAPL" 10)))
               = true) by (vm_compute; reflexivity).
  assert (Hrows : portfolio_rows 1 db
                  = [(0%nat, Portfolio.mk 1 (Dec.mk 984992500 (-4)))])
    by (vm_compute; reflexivity).
  assert (Hrow : position_rows 1 (upper "AAPL") db
                 = [(0%nat, Position.mk 1 "AAPL" 10 (Dec.mk 150 0))])
    by (vm_compute; reflexivity).
  destruct (Hdel (quote (Dec.mk 160 0)) 1 (sell "AAPL" 10) _ _ _ _
              eq_refl Hs Hrows Hrow eq_refl) as [Hpositions _].
  rewrite Hpositions. vm_compute. reflexivity.
Defined.



(** C5. A sell of fewer shares than held changes, of the positions, only
    the quantity of the one sold from: its average cost stays, every other
    position row stays; of the portfolios only the seller's cash balance
    changes; the stock cache stays, and the ledger gains one row. *)
Theorem partial_sell_frame
    (get_stock_info : string -> option StockInfo.t) (db db' : Database)
    (portfolio_id : Z) (trade_request : TradeRequest.t) (resp : TradeResponse.t) :
  execute_trade get_stock_info db portfolio_id trade_request = (resp, db') ->
  TradeResponse.success resp = true ->
  TradeRequest.order_type trade_request = SELL ->
  exists ref pf i pos,
    portfolio_rows portfolio_id db = [(ref, pf)] /\
    position_rows (Portfolio.id pf) (upper (TradeRequest.symbol trade_request)) db
      = [(i, pos)] /\
    (TradeRequest.quantity trade_request < Position.quantity pos ->
     positions db' =
       <[i := Position.mk (Position.portfolio_id pos) (Position.symbol pos)
                          (Position.quantity pos - TradeRequest.quantity trade_request)
                          (Position.average_cost pos)]> (positions db) /\
     (forall j, j <> i -> positions db' !! j = positions db !! j) /\
     (exists cash', portfolios db' =
                      <[ref := Portfolio.mk (Portfolio.id pf) cash']> (portfolios db)) /\
     (forall j, j <> ref -> portfolios db' !! j = portfolios db !! j) /\
     stocks db' = stocks db /\
     (exists t, trades db' = trades db ++ [t])).
Proof.
  intros H Hs Hside.
  destruct (execute_trade_success _ _ _ _ _ _ H Hs)
    as (info & p & ref & pf & _ & _ & Hrows & _ & Hcase).
  cbv zeta in Hcase. rewrite Hside in Hcase.
  destruct Hcase as (i & pos & Hrow & _ & Hpf & (k & Ht) & Hstocks & Hpositions).
  exists ref, pf, i, pos. split; [exact Hrows|]. split; [exact Hrow|].
  intros Hlt.
  destruct (Z.eqb_spec (Position.quantity pos - TradeRequest.quantity trade_request) 0)
    as [Hz|_]; [lia|].
  split; [exact Hpositions|]. split.
  - intros j Hj. rewrite Hpositions. apply list_lookup_insert_ne. congruence.
  - split; [eexists; exact Hpf|]. split.
    + intros j Hj. rewrite Hpf. apply list_lookup_insert_ne. congruence.
    + split; [exact Hstocks|eexists; exact Ht].
Qed.

(** Ten shares held at 150, four of them sold at 160: six are left, still
    at an average cost of 150. *)
Lemma partial_sell_frame_witness :
  positions (snd (execute_trade (quote (Dec.mk 160 0))
                    {| portfolios := [Portfolio.mk 1 (Dec.mk 10000000 (-2))];
                       positions := [Position.mk 1 "AAPL" 10 (Dec.mk 150 0)];
                       trades := []; stocks := [] |} 1 (sell "AAPL" 4)))
  = [Position.mk 1 "AAPL" 6 (Dec.mk 150 0)].
Proof.
  set (db := {| portfolios := [Portfolio.mk 1 (Dec.mk 10000000 (-2))];
                positions := [Position.mk 1 "AAPL" 10 (Dec.mk 150 0)];
                trades := []; stocks := [] |}).
  assert (Hs : TradeResponse.success
                 (fst (execute_trade (quote (Dec.mk 160 0)) db 1 (sell "AAPL" 4)))
               = true) by (vm_compute; reflexivity).
  destruct (partial_sell_frame (quote (Dec.mk 160 0)) db _ 1 (sell "AAPL" 4) _
              (surjective_pairing _) Hs eq_refl)
    as (ref & pf & i & pos & Hrows & Hrow & Hframe).
  assert (Hrows' : portfolio_rows 1 db = [(0%nat, Portfolio.mk 1 (Dec.mk 10000000 (-2)))])
    by (vm_compute; reflexivity).
  rewrite Hrows' in Hrows. injection Hrows as <- <-.
  assert (Hrow' : position_rows 1 (upper "AAPL") db
                  = [(0%nat, Position.mk 1 "AAPL" 10 (Dec.mk 150 0))])
    by (vm_compute; reflexivity).
  cbn [Portfolio.id TradeRequest.symbol sell] in Hrow.
  rewrite Hrow' in Hrow. injection Hrow as <- <-.
  destruct Hframe as (Hpositions & _); [cbn; lia|].
  rewrite Hpositions. reflexivity.
Defined.

Lemma delete_elem_of {A} (l : list A) (i : nat) (x : A) :
  x ∈ delete i l -> x ∈ l.
Proof.
  revert i. induction l as [|y l IH]; intros [|i] Hx; cbn in Hx.
  - exact Hx.
  - exact Hx.
  - apply list_elem_of_further. exact Hx.
  - apply elem_of_cons in Hx as [->|Hx].
    + apply list_elem_of_here.
    + apply list_elem_of_further. eapply IH. exact Hx.
Qed.

Lemma insert_elem_of {A} (l : list A) (i : nat) (x y : A) :
  x ∈ <[i := y]> l -> x ∈ l \/ x = y.
Proof.
  intros Hx. apply list_elem_of_lookup in Hx as [j Hj].
  destruct (decide (i = j)) as [->|Hne].
  - apply list_lookup_insert_Some in Hj as [(_ & <- & _)|(Hne & _)]; [|congruence].
    right. reflexivity.
  - rewrite list_lookup_insert_ne in Hj by exact Hne.
    left. eapply list_elem_of_lookup_2. exact Hj.
Qed.



(** ** The grouping of the ledger by symbol *)

Lemma fold_left_sum {A} (f : A -> Z) (l : list A) (a : Z) :
  fold_left (fun n x => n + f x) l a = a + foldr Z.add 0 (map f l).
Proof.
  revert a. induction l as [|x l IH]; intros a; cbn; [lia|]. rewrite IH. lia.
Qed.

Lemma filter_ext_in {A} (P1 P2 : A -> Prop)
    `{!forall x, Decision (P1 x), !forall x, Decision (P2 x)} (l : list A) :
  (forall x, x ∈ l -> P1 x <-> P2 x) -> filter P1 l = filter P2 l.
Proof.
  induction l as [|a l IH]; intros Hext; [reflexivity|].
  assert (Ha : P1 a <-> P2 a) by (apply Hext; apply list_elem_of_here).
  assert (Hl : filter P1 l = filter P2 l).
  { apply IH. intros x Hx. apply Hext. apply list_elem_of_further. exact Hx. }
  destruct (decide (P1 a)) as [Hp|Hp].
  - rewrite !filter_cons_True by tauto. rewrite Hl. reflexivity.
  - rewrite !filter_cons_False by tauto. exact Hl.
Qed.

Lemma map_ext_elem_of {A B} (f g : A -> B) (l : list A) :
  (forall x, x ∈ l -> f x = g x) -> map f l = map g l.
Proof.
  induction l as [|a l IH]; intros Hext; [reflexivity|]. cbn. f_equal.
  - apply Hext, list_elem_of_here.
  - apply IH. intros x Hx. apply Hext, list_elem_of_further, Hx.
Qed.

Lemma dict_append_groups (ks : list string) (G : string -> list Trade.t)
    (k : string) (t : Trade.t) :
  NoDup ks ->
  dict_append (map (fun k' => (k', G k')) ks) k t
  = map (fun k' => (k', G k' ++ (if String.eqb k' k then [t] else []))) ks
    ++ (if decide (k ∈ ks) then [] else [(k, [t])]).
Proof.
  induction ks as [|a ks IH]; intros Hnd.
  - cbn. destruct (decide (k ∈ [])) as [Hin|_]; [inversion Hin|reflexivity].
  - apply NoDup_cons in Hnd as [Ha Hnd]. cbn [map dict_append app].
    destruct (String.eqb a k) eqn:Hak.
    + apply String.eqb_eq in Hak. subst a.
      destruct (decide (k ∈ k :: ks)) as [_|Hn]; [|exfalso; apply Hn, list_elem_of_here].
      rewrite app_nil_r. f_equal. apply map_ext_elem_of. intros k' Hk'.
      destruct (String.eqb k' k) eqn:Hk'k.
      * apply String.eqb_eq in Hk'k. subst k'. contradiction.
      * rewrite app_nil_r. reflexivity.
    + rewrite app_nil_r. rewrite (IH Hnd). f_equal. f_equal.
      apply String.eqb_neq in Hak.
      destruct (decide (k ∈ ks)) as [Hin|Hn];
        destruct (decide (k ∈ a :: ks)) as [Hin'|Hn']; try reflexivity.
      * exfalso. apply Hn'. apply list_elem_of_further. exact Hin.
      * exfalso. apply elem_of_cons in Hin' as [->|Hin']; [congruence|contradiction].
Qed.

Lemma symbol_trades_groups (l : list Trade.t) :
  exists ks, NoDup ks /\ (forall t, t ∈ l -> Trade.symbol t ∈ ks) /\
    symbol_trades l = map (fun k => (k, filter (fun t => Trade.symbol t = k) l)) ks.
Proof.
  induction l as [|t l IH] using rev_ind.
  - exists []. split; [constructor|]. split; [intros t Ht; inversion Ht|reflexivity].
  - destruct IH as (ks & Hnd & Hcover & Heq).
    unfold symbol_trades in *. rewrite fold_left_app. cbn [fold_left].
    rewrite Heq, (dict_append_groups _ _ _ _ Hnd).
    assert (Hmap : map (fun k' => (k', filter (fun t0 => Trade.symbol t0 = k') l ++
                                    (if String.eqb k' (Trade.symbol t) then [t] else []))) ks
                   = map (fun k => (k, filter (fun t0 => Trade.symbol t0 = k) (l ++ [t]))) ks).
    { apply map_ext. intros k. f_equal. rewrite filter_app. f_equal.
      rewrite filter_singleton by exact l.
      destruct (String.eqb k (Trade.symbol t)) eqn:Hk.
      - apply String.eqb_eq in Hk. rewrite decide_True by congruence. reflexivity.
      - apply String.eqb_neq in Hk. rewrite decide_False by congruence. reflexivity. }
    rewrite Hmap.
    destruct (decide (Trade.symbol t ∈ ks)) as [Hin|Hn].
    + exists ks. split; [exact Hnd|]. split; [|apply app_nil_r].
      intros t' Ht'. apply elem_of_app in Ht' as [Ht'|Ht']; [apply Hcover; exact Ht'|].
      apply list_elem_of_singleton in Ht' as ->. exact Hin.
    + exists (ks ++ [Trade.symbol t]). split; [|split].
      * apply NoDup_app. split; [exact Hnd|]. split; [|apply NoDup_singleton].
        intros x Hx Hx'. apply list_elem_of_singleton in Hx' as ->. contradiction.
      * intros t' Ht'. apply elem_of_app.
        apply elem_of_app in Ht' as [Ht'|Ht']; [left; apply Hcover; exact Ht'|].
        apply list_elem_of_singleton in Ht' as ->. right. apply list_elem_of_here.
      * rewrite map_app. f_equal. cbn [map]. f_equal. f_equal.
        rewrite filter_app, filter_singleton_True by (exact l || reflexivity).
        replace (filter (fun t0 => Trade.symbol t0 = Trade.symbol t) l) with (@nil Trade.t);
          [reflexivity|].
        destruct (filter (fun t0 => Trade.symbol t0 = Trade.symbol t) l) as [|x xs] eqn:E;
          [reflexivity|].
        assert (Hx : x ∈ filter (fun t0 => Trade.symbol t0 = Trade.symbol t) l)
          by (rewrite E; apply list_elem_of_here).
        apply list_elem_of_filter in Hx as [Hsym Hx]. exfalso. apply Hn.
        rewrite <- Hsym. apply Hcover. exact Hx.
Qed.

(** A sum over the groups counts every row once. *)
Lemma group_count (P : Trade.t -> Prop) `{!forall t, Decision (P t)}
    (ks : list string) (l : list Trade.t) :
  NoDup ks -> (forall t, t ∈ l -> Trade.symbol t ∈ ks) ->
  foldr Z.add 0
    (map (fun k => Z.of_nat (length (filter P (filter (fun t => Trade.symbol t = k) l)))) ks)
  = Z.of_nat (length (filter P l)).
Proof.
  intros Hnd. induction l as [|t l IH]; intros Hcover.
  - clear Hnd Hcover. induction ks as [|k ks IH]; [reflexivity|].
    cbn [map foldr]. rewrite IH, !filter_nil. reflexivity.
  - assert (Hl : forall t', t' ∈ l -> Trade.symbol t' ∈ ks)
      by (intros t' Ht'; apply Hcover, list_elem_of_further, Ht').
    specialize (IH Hl).
    assert (Ht : Trade.symbol t ∈ ks) by apply Hcover, list_elem_of_here.
    assert (Hsplit : forall ks', NoDup ks' ->
      foldr Z.add 0
        (map (fun k => Z.of_nat (length
                 (filter P (filter (fun t0 => Trade.symbol t0 = k) (t :: l))))) ks')
      = foldr Z.add 0
          (map (fun k => Z.of_nat (length
                 (filter P (filter (fun t0 => Trade.symbol t0 = k) l)))) ks')
        + (if decide (Trade.symbol t ∈ ks' /\ P t) then 1 else 0)).
    { clear. induction ks' as [|k ks' IH']; intros Hnd'.
      - cbn. rewrite decide_False; [reflexivity|]. intros [Hin _]. inversion Hin.
      - apply NoDup_cons in Hnd' as [Hk Hnd']. cbn [map foldr]. rewrite (IH' Hnd').
        destruct (decide (Trade.symbol t = k)) as [Heq|Hne].
        + rewrite (filter_cons_True _ t l) by exact Heq.
          assert (Hnot : ~ (Trade.symbol t ∈ ks' /\ P t))
            by (intros [Hin _]; apply Hk; rewrite <- Heq; exact Hin).
          rewrite (decide_False (P := Trade.symbol t ∈ ks' /\ P t)) by exact Hnot.
          destruct (decide (P t)) as [Hp|Hp].
          * rewrite filter_cons_True by exact Hp.
            rewrite decide_True by (split; [rewrite Heq; apply list_elem_of_here|exact Hp]).
            cbn [length]. lia.
          * rewrite filter_cons_False by exact Hp.
            rewrite decide_False by tauto. lia.
        + rewrite (filter_cons_False _ t l) by exact Hne.
          destruct (decide (Trade.symbol t ∈ ks' /\ P t)) as [[Hin Hp]|Hn].
          * rewrite decide_True by (split; [apply list_elem_of_further, Hin|exact Hp]). lia.
          * rewrite decide_False; [lia|]. intros [Hin Hp]. apply Hn. split; [|exact Hp].
            apply elem_of_cons in Hin as [Heq|Hin]; [contradiction|exact Hin]. }
    rewrite (Hsplit ks Hnd), IH.
    destruct (decide (P t)) as [Hp|Hp].
    + rewrite filter_cons_True by exact Hp. rewrite decide_True by tauto. cbn [length]. lia.
    + rewrite filter_cons_False by exact Hp. rewrite decide_False by tauto. lia.
Qed.

(** The count of one group, row by row. *)
Lemma profitable_of_group (all_trades : list Trade.t) (k : string) :
  profitable_of (filter (fun t => Trade.symbol t = k) all_trades)
  = Z.of_nat (length (filter (fun t => profitable_sell all_trades t = true)
                             (filter (fun t => Trade.symbol t = k) all_trades))).
Proof.
  set (group := filter (fun t => Trade.symbol t = k) all_trades).
  assert (Hbuys : filter (fun t => is_buy t = true) group = buys_of k all_trades).
  { unfold group, buys_of. apply list_filter_filter. }
  assert (Hsym : forall t, t ∈ group -> Trade.symbol t = k).
  { intros t Ht. apply list_elem_of_filter in Ht as [Ht _]. exact Ht. }
  unfold profitable_of. cbv zeta. rewrite Hbuys.
  destruct (buys_of k all_trades) as [|b bs] eqn:Hb.
  - symmetry. replace (filter (fun t => profitable_sell all_trades t = true) group)
      with (@nil Trade.t); [reflexivity|].
    symmetry.
    destruct (filter (fun t => profitable_sell all_trades t = true) group)
      as [|x xs] eqn:E; [reflexivity|].
    assert (Hx : x ∈ filter (fun t => profitable_sell all_trades t = true) group)
      by (rewrite E; apply list_elem_of_here).
    apply list_elem_of_filter in Hx as [Hp Hx]. unfold profitable_sell in Hp.
    rewrite (Hsym x Hx), Hb, andb_false_r in Hp. discriminate Hp.
  - assert (Hcount :
      filter (fun s => PrimFloat.ltb (avg_buy_price (b :: bs))
                         (Float64.of_dec (Trade.price s)) = true)
             (filter (fun t => is_sell t = true) group)
      = filter (fun t => profitable_sell all_trades t = true) group).
    { rewrite list_filter_filter. apply filter_ext_in. intros t Ht.
      unfold profitable_sell. rewrite (Hsym t Ht), Hb.
      rewrite andb_true_iff. cbv beta iota. split; intros [? ?]; split; assumption. }
    rewrite <- Hcount.
    destruct (filter (fun t => is_sell t = true) group) as [|s ss]; reflexivity.
Qed.

(** C7, as the code has it. The win rate is the number of sells priced
    above the plain mean of all the buy prices of their symbol (buys made
    after the sell included, quantities not weighed), divided by the number
    of all the trades of the ledger, buys included, times one hundred. *)
Theorem win_rate_over_all_trades (all_trades : list Trade.t) :
  let wins := Z.of_nat (length (filter (fun t => profitable_sell all_trades t = true)
                                       all_trades)) in
  profitable_trades all_trades = wins /\
  win_rate all_trades =
    match all_trades with
    | [] => PrimFloat.zero
    | _ :: _ => PrimFloat.mul (Float64.div_int wins (Z.of_nat (length all_trades))) hundred
    end.
Proof.
  cbv zeta.
  assert (Hwins : profitable_trades all_trades
                  = Z.of_nat (length (filter (fun t => profitable_sell all_trades t = true)
                                             all_trades))).
  { unfold profitable_trades.
    destruct (symbol_trades_groups all_trades) as (ks & Hnd & Hcover & ->).
    rewrite fold_left_sum, map_map. cbn [snd]. rewrite Z.add_0_l.
    rewrite <- (group_count _ ks all_trades Hnd Hcover).
    f_equal. apply map_ext. intros k. apply profitable_of_group. }
  split; [exact Hwins|].
  unfold win_rate. destruct all_trades as [|t l]; [reflexivity|].
  rewrite Hwins.
  destruct (0 <? Z.of_nat (length (t :: l))) eqn:Hlen; [reflexivity|].
  apply Z.ltb_ge in Hlen. cbn [length] in Hlen. lia.
Qed.

(** C7, as the specification words it, does not hold. One round trip, ten
    shares bought at 100 and sold at 110, is a win rate of 50 where the
    specification gives 100: the buy is counted among the trades the wins
    are divided by. With ten more shares bought at 200 afterwards the win
    rate is 0: the later buy raises the mean the earlier sell is held
    against. *)
Lemma win_rate_counts_buys :
  let db1 := snd (execute_trade (quote (Dec.mk 100 0)) fresh_db 1 (buy "AAPL" 10)) in
  let db2 := snd (execute_trade (quote (Dec.mk 110 0)) db1 1 (sell "AAPL" 10)) in
  let db3 := snd (execute_trade (quote (Dec.mk 200 0)) db2 1 (buy "AAPL" 10)) in
  (length (trades db2) = 2%nat /\
   win_rate (trades db2) = 50%float /\ spec_win_rate (trades db2) = 100%float) /\
  (length (trades db3) = 3%nat /\
   win_rate (trades db3) = 0%float /\ spec_win_rate (trades db3) = 100%float).
Proof.
  vm_compute. repeat split; reflexivity.
Qed.

(** ** Valuation *)

Ltac step_valuation :=
  match goal with
  | |- context [match decimal_of_str ?v ?s with _ => _ end] =>
      destruct v; cbn [decimal_of_str ret raise]
  | |- context [match decimal_div ?x ?y ?s with _ => _ end] =>
      unfold decimal_div; destruct (Dec.div x y); cbn [ret raise]
  | |- context [if Dec.gtb ?x ?y then _ else _] => destruct (Dec.gtb x y)
  end.

(** The loop passes over a position that has no quote. *)
Lemma value_positions_unpriced (o : string -> option StockInfo.t)
    (held : list Position.t) :
  forall position_values total_stock_value s,
    value_positions o (filter (fun pos => ~ unpriced o pos) held)
                    position_values total_stock_value s
    = value_positions o held position_values total_stock_value s.
Proof.
  induction held as [|pos held IH]; intros acc tot s; [reflexivity|].
  destruct (o (Position.symbol pos)) as [info|] eqn:Ho.
  - rewrite filter_cons_True by (unfold unpriced; congruence).
    cbn [value_positions]. rewrite Ho.
    unfold mbind, M_bind, bind, mret, M_ret.
    repeat (step_valuation; try reflexivity); apply IH.
  - rewrite filter_cons_False by (unfold unpriced; intros Hn; apply Hn; exact Ho).
    cbn [value_positions]. rewrite Ho. apply IH.
Qed.

(** The loop neither reads nor writes the session. *)
Lemma value_positions_session (o : string -> option StockInfo.t)
    (held : list Position.t) :
  forall position_values total_stock_value s s2,
    value_positions o held position_values total_stock_value s2
    = match value_positions o held position_values total_stock_value s with
      | Ok x _ => Ok x s2
      | Raise e _ => Raise e s2
      end.
Proof.
  induction held as [|pos held IH]; intros acc tot s s2; [reflexivity|].
  cbn [value_positions].
  destruct (o (Position.symbol pos)) as [info|]; [|apply IH].
  unfold mbind, M_bind, bind, mret, M_ret.
  repeat (step_valuation; try reflexivity); apply IH.
Qed.

Lemma held_positions_without_unpriced (o : string -> option StockInfo.t)
    (db : Database) (portfolio_id : Z) :
  held_positions (without_unpriced o db) portfolio_id
  = filter (fun pos => ~ unpriced o pos) (held_positions db portfolio_id).
Proof.
  unfold held_positions, without_unpriced. cbn [positions].
  rewrite !list_filter_filter. apply list_filter_iff. intros pos. tauto.
Qed.

(** C8, as the code has it. A held position whose symbol has no quote is
    passed over: the valuation is the one of the same database with these
    positions removed. It fails in no case the other would not, the position
    adds nothing to the stock value, and nothing in the result tells that a
    position was left out. *)
Theorem valuation_drops_unpriced
    (get_stock_info : string -> option StockInfo.t) (db : Database) (portfolio_id : Z) :
  calculate_portfolio_value get_stock_info db portfolio_id
  = calculate_portfolio_value get_stock_info (without_unpriced get_stock_info db)
                              portfolio_id.
Proof.
  unfold calculate_portfolio_value, run, try_except, calculate_portfolio_value_body,
    select_portfolio.
  unfold mbind, M_bind, bind, gets. cbn [pending]. cbv beta.
  replace (portfolio_rows portfolio_id (without_unpriced get_stock_info db))
    with (portfolio_rows portfolio_id db) by reflexivity.
  destruct (portfolio_rows portfolio_id db) as [|[ref pf] [|row rows]];
    cbn [scalar_one_or_none ret raise pending]; try reflexivity.
  rewrite held_positions_without_unpriced.
  rewrite value_positions_unpriced.
  rewrite (value_positions_session get_stock_info _ _ _
             {| committed := db; pending := db |}
             {| committed := without_unpriced get_stock_info db;
                pending := without_unpriced get_stock_info db |}).
  destruct (value_positions get_stock_info (held_positions db portfolio_id) [] Dec.zero
              {| committed := db; pending := db |}) as [[pv tot] s|e s]; reflexivity.
Qed.

(** C8, as the specification words it, does not hold. A portfolio holds
    AAPL, quoted at 160, and XYZ, which has no quote. Its valuation is, field
    for field, the valuation of the portfolio that holds AAPL alone: a stock
    value of 1600 and one position, with nothing that marks it as partial. *)
Lemma unpriced_position_not_flagged :
  let o := quote_only "AAPL" (Dec.mk 160 0) in
  let aapl := Position.mk 1 "AAPL" 10 (Dec.mk 150 0) in
  let xyz := Position.mk 1 "XYZ" 5 (Dec.mk 20 0) in
  o "XYZ" = None /\
  calculate_portfolio_value o (holding [aapl; xyz]) 1
  = calculate_portfolio_value o (holding [aapl]) 1 /\
  option_map PortfolioValue.stock_value
             (calculate_portfolio_value o (holding [aapl; xyz]) 1)
  = Some 1600%float /\
  option_map (fun v => map PositionValue.symbol (PortfolioValue.positions v))
             (calculate_portfolio_value o (holding [aapl; xyz]) 1)
  = Some ["AAPL"].
Proof.
  vm_compute. repeat split; reflexivity.
Qed.

(** ** The ledger and the cash balance *)

(** C6 does not hold for a competition account. A participant with 10000.00
    buys one share quoted at 189.98. The trade is recorded with a gross
    amount of 189.98 and no fee, and the balance left is
    9809.92501000000001, above the 9809.92501 that the starting balance
    minus gross and fee comes to: the debit is computed in binary floating
    point and read back through its shortest decimal form. *)
Lemma competition_balance_not_reconciled :
  let r := execute_competition_trade (quote (Dec.mk 18998 (-2))) competitor
                                     (buy "AAPL" 1) in
  CompetitionResponse.success (fst r) = true /\
  competition_trades (snd r)
  = [CompetitionTrade.mk 1 1 1 1 "AAPL" "BUY" 1 (Dec.mk 18998 (-2)) (Dec.mk 18998 (-2))] /\
  CompetitionParticipant.current_balance (participant (snd r))
  = Dec.mk 980992501000000001 (-14) /\
  (Dec.value (CompetitionParticipant.starting_balance (participant (snd r)))
   + competition_ledger_sum (competition_trades (snd r))
   < Dec.value (CompetitionParticipant.current_balance (participant (snd r))))%Q.
Proof.
  vm_compute. repeat split; reflexivity.
Qed.







(** * The read side of the trading service *)




(** X2. The history of a portfolio never has more entries than asked for, and
    every entry is a ledger row of that portfolio. *)
Theorem trade_history_bounded (db : Database) (portfolio_id limit : Z) :
  0 <= limit ->
  Z.of_nat (length (get_trade_history db portfolio_id limit)) <= limit /\
  forall item, item ∈ get_trade_history db portfolio_id limit ->
    exists t, t ∈ trades db /\ Trade.portfolio_id t = portfolio_id /\
              item = trade_history_item t.
Proof.
  intros Hl. unfold get_trade_history, recent_trades. split.
  - rewrite length_map, length_take. lia.
  - intros item Hitem. apply list_elem_of_fmap in Hitem as (t & -> & Ht).
    exists t. apply elem_of_take in Ht as (i & Hi & _).
    apply list_elem_of_lookup_2 in Hi. rewrite elem_of_reverse in Hi.
    apply list_elem_of_filter in Hi as [Hp Hi]. auto.
Qed.

(** Asked for the last 50 trades of a fresh portfolio that bought once. *)
Lemma trade_history_bounded_witness :
  Z.of_nat (length (get_trade_history
                      (snd (execute_trade (quote (Dec.mk 150 0)) fresh_db 1 (buy "AAPL" 10)))
                      1 50)) <= 50.
Proof.
  refine (proj1 (trade_history_bounded _ 1 50 _)). lia.
Defined.



(** ** The positions of a portfolio *)

(** The loop ends with what it began with, or with an exception. *)
Lemma position_data_outcome (o : string -> option StockInfo.t)
    (held : list Position.t) :
  forall acc s,
    position_data o held acc s = Ok acc s \/
    exists e, position_data o held acc s = Raise e s.
Proof.
  induction held as [|pos held IH]; intros acc s; [left; reflexivity|].
  cbn [position_data].
  destruct (o (Position.symbol pos)) as [info|]; [|apply IH].
  right. unfold mbind, M_bind, bind, decimal_times_int, float_times_int,
    decimal_minus_float, ret, raise.
  destruct (StockInfo.current_price info); [|eexists; reflexivity].
  destruct (PrimFloat.is_infinity _); eexists; reflexivity.
Qed.

(** X4. [get_portfolio_positions] answers the empty list, whatever the
    portfolio holds and whatever the oracle quotes. A held position without
    a quote is passed over; one with a quote ends the loop with a
    [TypeError] (a [Decimal] market value less a [float] cost basis, or no
    price times a quantity), and the handler answers []. *)
Theorem portfolio_positions_always_empty
    (get_stock_info : string -> option StockInfo.t) (db : Database) (portfolio_id : Z) :
  get_portfolio_positions get_stock_info db portfolio_id = [].
Proof.
  unfold get_portfolio_positions, run, try_except, mbind, M_bind, bind, gets.
  cbn [pending].
  destruct (position_data_outcome get_stock_info (held_positions db portfolio_id) []
              {| committed := db; pending := db |}) as [->|[e ->]]; reflexivity.
Qed.

(** ** When a valuation is there *)

Lemma div_defined (a b : Dec.t) :
  Dec.is_zero b = false -> exists r, Dec.div a b = Some r.
Proof.
  intros Hb. unfold Dec.div. rewrite Hb.
  destruct (Dec.is_zero a); [eexists; reflexivity|]. cbv zeta.
  repeat match goal with
         | |- context [let '(_, _) := ?x in _] => destruct x
         end.
  eexists; reflexivity.
Qed.

Lemma gtb_zero_div (a b : Dec.t) :
  Dec.gtb b Dec.zero = true -> exists r, Dec.div a b = Some r.
Proof.
  intros H. apply div_defined.
  unfold Dec.gtb, Dec.ltb, Dec.compare, Dec.is_zero, Dec.zero in *.
  cbn [Dec.coef Dec.expo] in H.
  destruct (Dec.coef b =? 0) eqn:Hb; [|reflexivity].
  apply Z.eqb_eq in Hb. rewrite Hb in H. cbn in H. discriminate H.
Qed.

(** The loop of the valuation: it raises exactly on a quote without a
    price, and lists the quoted positions in their order. *)
Lemma value_positions_outcome (o : string -> option StockInfo.t)
    (held : list Position.t) :
  forall acc tot s,
    (Forall (has_price o) held /\
     exists pv tot',
       value_positions o held acc tot s = Ok (pv, tot') s /\
       map PositionValue.symbol pv
       = map PositionValue.symbol acc
         ++ map Position.symbol (filter (fun pos => ~ unpriced o pos) held))
    \/
    (Exists (fun pos => exists info, o (Position.symbol pos) = Some info /\
                                     StockInfo.current_price info = None) held /\
     exists e, value_positions o held acc tot s = Raise e s).
Proof.
  induction held as [|pos held IH]; intros acc tot s.
  - left. split; [constructor|]. eexists _, _. split; [reflexivity|].
    rewrite filter_nil. cbn. rewrite app_nil_r. reflexivity.
  - cbn [value_positions].
    destruct (o (Position.symbol pos)) as [info|] eqn:Ho.
    + destruct (StockInfo.current_price info) as [p|] eqn:Hp.
      * assert (Hpos : has_price o pos).
        { intros info' Hinfo. rewrite Ho in Hinfo. injection Hinfo as <-. eauto. }
        assert (Hq : ~ unpriced o pos) by (unfold unpriced; congruence).
        unfold mbind, M_bind, bind, mret, M_ret, decimal_of_str, decimal_div, ret.
        destruct (Dec.gtb _ Dec.zero) eqn:Hg.
        -- destruct (gtb_zero_div
                       (Dec.sub (Dec.mul p (Dec.of_Z (Position.quantity pos)))
                                (Dec.mul (Position.average_cost pos)
                                         (Dec.of_Z (Position.quantity pos))))
                       _ Hg) as [r ->].
           match goal with
           | |- context [value_positions o held ?a ?t s] =>
               destruct (IH a t s) as [(Hall & pv & tot' & -> & Hsym)
                                      |(Hex & e & ->)]
           end.
           ++ left. split; [constructor; assumption|]. eexists _, _.
              split; [reflexivity|]. rewrite Hsym, map_app.
              rewrite filter_cons_True by exact Hq. cbn. rewrite <- app_assoc.
              reflexivity.
           ++ right. split; [apply Exists_cons_tl; exact Hex|]. eexists; reflexivity.
        -- match goal with
           | |- context [value_positions o held ?a ?t s] =>
               destruct (IH a t s) as [(Hall & pv & tot' & -> & Hsym)
                                      |(Hex & e & ->)]
           end.
           ++ left. split; [constructor; assumption|]. eexists _, _.
              split; [reflexivity|]. rewrite Hsym, map_app.
              rewrite filter_cons_True by exact Hq. cbn. rewrite <- app_assoc.
              reflexivity.
           ++ right. split; [apply Exists_cons_tl; exact Hex|]. eexists; reflexivity.
      * right. split; [apply Exists_cons_hd; eauto|].
        unfold mbind, M_bind, bind, decimal_of_str, raise. eexists; reflexivity.
    + assert (Hpos : has_price o pos).
      { intros info' Hinfo. rewrite Ho in Hinfo. discriminate Hinfo. }
      destruct (IH acc tot s) as [(Hall & pv & tot' & Heq & Hsym)|(Hex & e & Heq)].
      * left. split; [constructor; assumption|]. eexists _, _.
        split; [exact Heq|]. rewrite Hsym.
        rewrite filter_cons_False by (intros Hn; apply Hn; exact Ho). reflexivity.
      * right. split; [apply Exists_cons_tl; exact Hex|]. eexists; exact Heq.
Qed.

Lemma unpriced_quote_excludes (o : string -> option StockInfo.t)
    (held : list Position.t) :
  Exists (fun pos => exists info, o (Position.symbol pos) = Some info /\
                                  StockInfo.current_price info = None) held ->
  Forall (has_price o) held -> False.
Proof.
  intros Hex Hall. apply Exists_exists in Hex as (pos & Hin & info & Ho & Hp).
  rewrite Forall_forall in Hall. destruct (Hall pos Hin info Ho) as [p Hp'].
  congruence.
Qed.

Lemma valuation_outcome
    (get_stock_info : string -> option StockInfo.t) (db : Database) (portfolio_id : Z) :
  ((exists v, calculate_portfolio_value get_stock_info db portfolio_id = Some v) <->
   (exists ref pf, portfolio_rows portfolio_id db = [(ref, pf)]) /\
   Forall (has_price get_stock_info) (held_positions db portfolio_id)) /\
  (forall v, calculate_portfolio_value get_stock_info db portfolio_id = Some v ->
     PortfolioValue.portfolio_id v = portfolio_id /\
     (exists ref pf, portfolio_rows portfolio_id db = [(ref, pf)] /\
        PortfolioValue.cash_balance v = Float64.of_dec (Portfolio.cash_balance pf)) /\
     map PositionValue.symbol (PortfolioValue.positions v)
     = map Position.symbol
           (filter (fun pos => ~ unpriced get_stock_info pos)
                   (held_positions db portfolio_id))).
Proof.
  unfold calculate_portfolio_value, run, try_except, calculate_portfolio_value_body,
    select_portfolio.
  unfold mbind, M_bind, bind, gets. cbn [pending]. cbv beta.
  destruct (portfolio_rows portfolio_id db) as [|[ref pf] [|row rows]];
    cbn [scalar_one_or_none ret raise pending].
  - split; [split|]; [intros [v Hv]; discriminate Hv
                     |intros [(r & p & Hr) _]; discriminate Hr
                     |intros v Hv; discriminate Hv].
  - destruct (value_positions_outcome get_stock_info (held_positions db portfolio_id)
                [] Dec.zero {| committed := db; pending := db |})
      as [(Hall & pv & tot' & -> & Hsym)|(Hex & e & ->)].
    + split; [split|].
      * intros _. split; [eauto|exact Hall].
      * intros _. eexists; reflexivity.
      * intros v [= <-]. cbn. split; [reflexivity|]. split; [eauto|exact Hsym].
    + split; [split|].
      * intros [v Hv]; discriminate Hv.
      * intros [_ Hall]. exfalso. eapply unpriced_quote_excludes; eassumption.
      * intros v Hv; discriminate Hv.
  - split; [split|]; [intros [v Hv]; discriminate Hv
                     |intros [(r & p & Hr) _]; discriminate Hr
                     |intros v Hv; discriminate Hv].
Qed.

(** X5. [calculate_portfolio_value] answers with a valuation exactly when the
    portfolio id selects one row and no held position has a quote without a
    price. The valuation then carries the id asked for and the cash balance
    of that row, and lists the held positions that have a quote, in their
    order. *)
Theorem valuation_defined
    (get_stock_info : string -> option StockInfo.t) (db : Database) (portfolio_id : Z) :
  ((exists v, calculate_portfolio_value get_stock_info db portfolio_id = Some v) <->
   (exists ref pf, portfolio_rows portfolio_id db = [(ref, pf)]) /\
   Forall (has_price get_stock_info) (held_positions db portfolio_id)) /\
  (forall v, calculate_portfolio_value get_stock_info db portfolio_id = Some v ->
     PortfolioValue.portfolio_id v = portfolio_id /\
     (exists ref pf, portfolio_rows portfolio_id db = [(ref, pf)] /\
        PortfolioValue.cash_balance v = Float64.of_dec (Portfolio.cash_balance pf)) /\
     map PositionValue.symbol (PortfolioValue.positions v)
     = map Position.symbol
           (filter (fun pos => ~ unpriced get_stock_info pos)
                   (held_positions db portfolio_id))).
Proof.
  destruct (valuation_outcome get_stock_info db portfolio_id) as [Hiff Hvalue].
  split.
  - exact Hiff.
  - intros v Hv. apply Hvalue. exact Hv.
Qed.


(** ** The sweep over all portfolios *)

Lemma count_portfolios (o : string -> option StockInfo.t) (db : Database)
    (l : list Portfolio.t) :
  forall u e,
    fold_left (count_portfolio o db) l (u, e)
    = (u + Z.of_nat (length (filter
                       (fun p => is_Some (calculate_portfolio_value o db (Portfolio.id p)))
                       l)),
       e + Z.of_nat (length (filter
                       (fun p => calculate_portfolio_value o db (Portfolio.id p) = None)
                       l))).
Proof.
  induction l as [|p l IH]; intros u e.
  - cbn. f_equal; lia.
  - cbn [fold_left]. unfold count_portfolio at 2.
    destruct (calculate_portfolio_value o db (Portfolio.id p)) as [v|] eqn:Hv.
    + rewrite IH.
      rewrite (filter_cons_True (fun p => is_Some _)) by (rewrite Hv; eauto).
      rewrite (filter_cons_False (fun p => _ = None)) by (rewrite Hv; discriminate).
      cbn [length]. f_equal; lia.
    + rewrite IH.
      rewrite (filter_cons_False (fun p => is_Some _))
        by (rewrite Hv; intros [x Hx]; discriminate Hx).
      rewrite (filter_cons_True (fun p => _ = None)) by exact Hv.
      cbn [length]. f_equal; lia.
Qed.

(** X6. [update_all_portfolios] counts every portfolio once: [updated] is the
    number of portfolios whose valuation is there, [errors] the number of
    those whose valuation is not, and the two add up to [total], the number
    of portfolio rows. *)
Theorem update_counts_add_up
    (get_stock_info : string -> option StockInfo.t) (db : Database) :
  let counts := update_all_portfolios get_stock_info db in
  UpdateCounts.updated counts
  = Z.of_nat (length (filter
       (fun p => is_Some (calculate_portfolio_value get_stock_info db (Portfolio.id p)))
       (portfolios db))) /\
  UpdateCounts.errors counts
  = Z.of_nat (length (filter
       (fun p => calculate_portfolio_value get_stock_info db (Portfolio.id p) = None)
       (portfolios db))) /\
  UpdateCounts.total counts = Z.of_nat (length (portfolios db)) /\
  UpdateCounts.updated counts + UpdateCounts.errors counts = UpdateCounts.total counts.
Proof.
  cbv zeta. unfold update_all_portfolios. rewrite count_portfolios.
  cbn [UpdateCounts.updated UpdateCounts.errors UpdateCounts.total].
  split; [lia|]. split; [lia|]. split; [reflexivity|].
  induction (portfolios db) as [|p l IH]; [reflexivity|].
  destruct (calculate_portfolio_value get_stock_info db (Portfolio.id p)) as [v|] eqn:Hv.
  - rewrite (filter_cons_True (fun p => is_Some _)) by (rewrite Hv; eauto).
    rewrite (filter_cons_False (fun p => _ = None)) by (rewrite Hv; discriminate).
    cbn [length]. lia.
  - rewrite (filter_cons_False (fun p => is_Some _))
      by (rewrite Hv; intros [x Hx]; discriminate Hx).
    rewrite (filter_cons_True (fun p => _ = None)) by exact Hv.
    cbn [length]. lia.
Qed.





(** ** The performance figures *)

(** X8. [calculate_portfolio_performance] answers [None] on every input: where
    the valuation is there and the portfolio is found, it reads
    [portfolio.initial_balance], an attribute the [Portfolio] model does not
    have, and the handler turns the exception into [None]. *)
Theorem portfolio_performance_never_there
    (get_stock_info : string -> option StockInfo.t) (db : Database)
    (portfolio_id period_days : Z) :
  calculate_portfolio_performance get_stock_info db portfolio_id period_days = None.
Proof.
  unfold calculate_portfolio_performance.
  destruct (calculate_portfolio_value get_stock_info db portfolio_id); [|reflexivity].
  destruct (run (select_portfolio portfolio_id) db) as [[[[ref portfolio]|]|] db'];
    reflexivity.
Qed.

(** * The competition service *)

Ltac unfold_competition :=
  cbv [execute_competition_trade execute_competition_trade_body
       _update_participant_value _get_current_position set_current_balance
       add_competition_trade decimal_of_float
       mbind CM_bind mret CM_ret craise cgets cmodify ccommit
       c_pending c_committed] in *;
  cbn [participant competition_trades] in *.

Ltac revalue_step :=
  match goal with
  | H : context [if forallb ?f ?l then _ else _] |- _ => destruct (forallb f l) eqn:?
  end.

Ltac competition_cases :=
  unfold_competition;
  repeat (first [case_step | revalue_step];
          cbn [c_pending c_committed participant competition_trades] in * );
  simplify_eq.

(** What one competition order does to the account. *)
Lemma competition_step o db req resp db' :
  execute_competition_trade o db req = (resp, db') ->
  db' = db \/
  exists k price amount balance,
    db' = {| participant :=
               CompetitionParticipant.mk
                 (CompetitionParticipant.id (participant db))
                 (CompetitionParticipant.competition_id (participant db))
                 (CompetitionParticipant.user_id (participant db))
                 (CompetitionParticipant.starting_balance (participant db)) balance;
             competition_trades :=
               competition_trades db ++
               [CompetitionTrade.mk k
                  (CompetitionParticipant.competition_id (participant db))
                  (CompetitionParticipant.id (participant db))
                  (CompetitionParticipant.user_id (participant db))
                  (TradeRequest.symbol req)
                  (match TradeRequest.order_type req with BUY => "BUY" | SELL => "SELL" end)
                  (TradeRequest.quantity req) price amount] |} /\
    match TradeRequest.order_type req with
    | BUY => True
    | SELL => TradeRequest.quantity req <= competition_holding db (TradeRequest.symbol req)
    end.
Proof.
  intros H. unfold competition_holding. competition_cases.
  all: try (left; reflexivity).
  all: right; eexists _, _, _, _; split; [reflexivity|]; try exact I; lia.
Qed.

Lemma competition_holding_eq (db : CompetitionDb) (symbol : string) :
  competition_holding db symbol
  = sum_quantity (CompetitionParticipant.id (participant db)) symbol "BUY"
                 (competition_trades db)
    - sum_quantity (CompetitionParticipant.id (participant db)) symbol "SELL"
                   (competition_trades db).
Proof. reflexivity. Qed.

Lemma sum_quantity_snoc (pid : Z) (symbol type_ : string)
    (rows : list CompetitionTrade.t) (t : CompetitionTrade.t) :
  sum_quantity pid symbol type_ (rows ++ [t])
  = sum_quantity pid symbol type_ rows
    + (if decide (CompetitionTrade.participant_id t = pid
                  /\ CompetitionTrade.symbol t = symbol
                  /\ CompetitionTrade.trade_type t = type_)
       then CompetitionTrade.quantity t else 0).
Proof.
  unfold sum_quantity. rewrite filter_app, map_app, foldr_app.
  rewrite filter_singleton by exact rows.
  destruct (decide _) as [Hd|Hd]; cbn [map foldr].
  - generalize (map CompetitionTrade.quantity
                    (filter (fun t0 => CompetitionTrade.participant_id t0 = pid
                                       /\ CompetitionTrade.symbol t0 = symbol
                                       /\ CompetitionTrade.trade_type t0 = type_) rows)).
    intros l. induction l as [|x l IH]; cbn [foldr]; lia.
  - lia.
Qed.

(** X9. A competition account never holds a negative number of shares: from an
    account whose holdings are all at or above zero, validated orders lead
    only to such accounts. The participant keeps its id and its starting
    balance, and the ledger only grows, by buy and sell rows of that
    participant with positive quantities. *)
Theorem competition_holdings_nonneg (db0 db : CompetitionDb) :
  competition_reachable db0 db ->
  (forall symbol, 0 <= competition_holding db0 symbol) ->
  (forall symbol, 0 <= competition_holding db symbol) /\
  CompetitionParticipant.id (participant db)
  = CompetitionParticipant.id (participant db0) /\
  CompetitionParticipant.starting_balance (participant db)
  = CompetitionParticipant.starting_balance (participant db0) /\
  exists new_rows,
    competition_trades db = competition_trades db0 ++ new_rows /\
    Forall (fun t =>
              CompetitionTrade.participant_id t
              = CompetitionParticipant.id (participant db0) /\
              0 < CompetitionTrade.quantity t /\
              (CompetitionTrade.trade_type t = "BUY"
               \/ CompetitionTrade.trade_type t = "SELL")) new_rows.
Proof.
  intros Hreach H0.
  induction Hreach as [|o db req Hreach IH Hv].
  - split; [exact H0|]. split; [reflexivity|]. split; [reflexivity|].
    exists []. split; [symmetry; apply app_nil_r|constructor].
  - destruct IH as (Hpos & Hid & Hstart & new_rows & Hrows & Hall).
    destruct (execute_competition_trade o db req) as [resp db'] eqn:H. cbn [snd].
    destruct (competition_step _ _ _ _ _ H)
      as [->|(k & price & amount & balance & -> & Hside)].
    + split; [exact Hpos|]. split; [exact Hid|]. split; [exact Hstart|].
      exists new_rows. split; assumption.
    + cbn [participant competition_trades CompetitionParticipant.id
           CompetitionParticipant.starting_balance].
      split; [|split; [exact Hid|split; [exact Hstart|]]].
      * intros symbol. rewrite competition_holding_eq.
        cbn [participant competition_trades CompetitionParticipant.id].
        rewrite !sum_quantity_snoc.
        cbn [CompetitionTrade.participant_id CompetitionTrade.symbol
             CompetitionTrade.trade_type CompetitionTrade.quantity].
        specialize (Hpos symbol). rewrite competition_holding_eq in Hpos.
        unfold TradeRequest.valid in Hv.
        destruct (TradeRequest.order_type req).
        -- rewrite (decide_False (P := _ /\ _ /\ "BUY" = "SELL"))
             by (intros (_ & _ & Hd); discriminate Hd).
           destruct (decide _); lia.
        -- rewrite (decide_False (P := _ /\ _ /\ "SELL" = "BUY"))
             by (intros (_ & _ & Hd); discriminate Hd).
           destruct (decide _) as [(_ & <- & _)|]; [|lia].
           rewrite competition_holding_eq in Hside. lia.
      * eexists (new_rows ++ [_]). split.
        -- rewrite Hrows, <- app_assoc. reflexivity.
        -- apply Forall_app. split; [exact Hall|]. constructor; [|constructor].
           cbn. split; [exact Hid|]. split; [exact Hv|].
           destruct (TradeRequest.order_type req); auto.
Qed.

(** One share bought with an empty ledger: nothing is held short. *)
Lemma competition_holdings_nonneg_witness :
  0 <= competition_holding
         (snd (execute_competition_trade (quote (Dec.mk 18998 (-2))) competitor
                                         (buy "AAPL" 1))) "AAPL".
Proof.
  assert (Hv : TradeRequest.valid (buy "AAPL" 1)) by (unfold TradeRequest.valid; cbn; lia).
  refine (proj1 (competition_holdings_nonneg competitor _
                   (competition_reachable_trade competitor (quote (Dec.mk 18998 (-2)))
                      competitor (buy "AAPL" 1) (competition_reachable_init competitor) Hv)
                   _) "AAPL").
  intros symbol. vm_compute. discriminate.
Defined.

(** ** The two ways of counting a holding *)

Lemma dict_get_add (d : list (string * Z)) (k : string) (n : Z) (k' : string) :
  dict_get (dict_add d k n) k'
  = if String.eqb k k' then Some (default 0 (dict_get d k) + n) else dict_get d k'.
Proof.
  induction d as [|[a v] d IH]; cbn [dict_add dict_get].
  - destruct (String.eqb k k'); reflexivity.
  - destruct (String.eqb a k) eqn:Hak; cbn [dict_get].
    + apply String.eqb_eq in Hak. subst a.
      destruct (String.eqb k k'); reflexivity.
    + rewrite IH. destruct (String.eqb a k') eqn:Hak'.
      * apply String.eqb_eq in Hak'. subst a. rewrite String.eqb_sym, Hak. reflexivity.
      * reflexivity.
Qed.

Lemma sum_map_snoc {A} (f : A -> Z) (l : list A) (t : A) :
  foldr Z.add 0 (map f (l ++ [t])) = foldr Z.add 0 (map f l) + f t.
Proof.
  induction l as [|x l IH]; cbn [app map foldr]; lia.
Qed.

(** The signed quantity of a ledger row, as [_get_all_positions] adds it. *)
Lemma all_positions_fold (l : list CompetitionTrade.t) (symbol : string) :
  dict_get
    (fold_left
       (fun positions trade =>
          if String.eqb (CompetitionTrade.trade_type trade) "BUY"
          then dict_add positions (CompetitionTrade.symbol trade)
                        (CompetitionTrade.quantity trade)
          else dict_add positions (CompetitionTrade.symbol trade)
                        (- CompetitionTrade.quantity trade)) l []) symbol
  = match filter (fun t => CompetitionTrade.symbol t = symbol) l with
    | [] => None
    | (_ :: _) as ls =>
        Some (foldr Z.add 0
                (map (fun t => if String.eqb (CompetitionTrade.trade_type t) "BUY"
                               then CompetitionTrade.quantity t
                               else - CompetitionTrade.quantity t) ls))
    end.
Proof.
  induction l as [|t l IH] using rev_ind; [reflexivity|].
  rewrite fold_left_app, filter_app. cbn [fold_left].
  rewrite filter_singleton by exact l.
  set (d := fold_left _ l []) in *.
  assert (Hstep : forall n,
            dict_get (dict_add d (CompetitionTrade.symbol t) n) symbol
            = if String.eqb (CompetitionTrade.symbol t) symbol
              then Some (default 0 (dict_get d symbol) + n) else dict_get d symbol).
  { intros n. rewrite dict_get_add.
    destruct (String.eqb (CompetitionTrade.symbol t) symbol) eqn:Hs; [|reflexivity].
    apply String.eqb_eq in Hs. rewrite Hs. reflexivity. }
  assert (Hgoal : dict_get
                    (if String.eqb (CompetitionTrade.trade_type t) "BUY"
                     then dict_add d (CompetitionTrade.symbol t) (CompetitionTrade.quantity t)
                     else dict_add d (CompetitionTrade.symbol t)
                                   (- CompetitionTrade.quantity t)) symbol
                  = if String.eqb (CompetitionTrade.symbol t) symbol
                    then Some (default 0 (dict_get d symbol)
                               + (if String.eqb (CompetitionTrade.trade_type t) "BUY"
                                  then CompetitionTrade.quantity t
                                  else - CompetitionTrade.quantity t))
                    else dict_get d symbol).
  { destruct (String.eqb (CompetitionTrade.trade_type t) "BUY"); apply Hstep. }
  rewrite Hgoal, IH. clear Hgoal Hstep IH.
  destruct (String.eqb (CompetitionTrade.symbol t) symbol) eqn:Hs.
  - apply String.eqb_eq in Hs. rewrite decide_True by exact Hs.
    destruct (filter (fun t0 => CompetitionTrade.symbol t0 = symbol) l) as [|x xs].
    + cbn. f_equal. lia.
    + change ((x :: xs) ++ [t]) with (x :: (xs ++ [t])).
      cbv iota. change (x :: (xs ++ [t])) with ((x :: xs) ++ [t]).
      rewrite sum_map_snoc. reflexivity.
  - apply String.eqb_neq in Hs. rewrite decide_False by exact Hs.
    rewrite app_nil_r. reflexivity.
Qed.

Lemma signed_sum_split (pid : Z) (symbol : string) (rows : list CompetitionTrade.t) :
  Forall (fun t => CompetitionTrade.participant_id t = pid ->
                   CompetitionTrade.trade_type t = "BUY"
                   \/ CompetitionTrade.trade_type t = "SELL") rows ->
  foldr Z.add 0
    (map (fun t => if String.eqb (CompetitionTrade.trade_type t) "BUY"
                   then CompetitionTrade.quantity t else - CompetitionTrade.quantity t)
         (filter (fun t => CompetitionTrade.symbol t = symbol)
                 (filter (fun t => CompetitionTrade.participant_id t = pid) rows)))
  = sum_quantity pid symbol "BUY" rows - sum_quantity pid symbol "SELL" rows.
Proof.
  unfold sum_quantity. induction 1 as [|t rows Ht Hrows IH]; [reflexivity|].
  destruct (decide (CompetitionTrade.participant_id t = pid)) as [Hp|Hp].
  - rewrite (filter_cons_True (fun t => CompetitionTrade.participant_id t = pid)) by exact Hp.
    destruct (decide (CompetitionTrade.symbol t = symbol)) as [Hs|Hs].
    + rewrite (filter_cons_True (fun t => CompetitionTrade.symbol t = symbol)) by exact Hs.
      cbn [map foldr]. rewrite IH.
      destruct (Ht Hp) as [Hty|Hty].
      * rewrite (filter_cons_True (fun t => _ /\ _ /\ _ = "BUY")) by auto.
        rewrite (filter_cons_False (fun t => _ /\ _ /\ _ = "SELL"))
          by (intros (_ & _ & Hd); rewrite Hty in Hd; discriminate Hd).
        rewrite Hty. cbn. lia.
      * rewrite (filter_cons_False (fun t => _ /\ _ /\ _ = "BUY"))
          by (intros (_ & _ & Hd); rewrite Hty in Hd; discriminate Hd).
        rewrite (filter_cons_True (fun t => _ /\ _ /\ _ = "SELL")) by auto.
        rewrite Hty. cbn. lia.
    + rewrite (filter_cons_False (fun t => CompetitionTrade.symbol t = symbol)) by exact Hs.
      rewrite IH.
      rewrite !(filter_cons_False (fun t => _ /\ _ /\ _)) by tauto. reflexivity.
  - rewrite (filter_cons_False (fun t => CompetitionTrade.participant_id t = pid)) by exact Hp.
    rewrite IH.
    rewrite !(filter_cons_False (fun t => _ /\ _ /\ _)) by tauto. reflexivity.
Qed.

(** X10. The dictionary of [_get_all_positions] and the sums of
    [_get_current_position] agree. On a ledger whose rows are buys and
    sells, the dictionary has an entry for a symbol exactly when the
    participant has a row for it, and the entry is the number
    [_get_current_position] answers: bought less sold. *)
Theorem all_positions_agree (db : CompetitionDb) (symbol : string) :
  let participant_id := CompetitionParticipant.id (participant db) in
  Forall (fun t => CompetitionTrade.participant_id t = participant_id ->
                   CompetitionTrade.trade_type t = "BUY"
                   \/ CompetitionTrade.trade_type t = "SELL") (competition_trades db) ->
  dict_get (_get_all_positions participant_id (competition_trades db)) symbol
  = if decide (Exists (fun t => CompetitionTrade.participant_id t = participant_id
                                /\ CompetitionTrade.symbol t = symbol)
                      (competition_trades db))
    then Some (competition_holding db symbol)
    else None.
Proof.
  cbv zeta. intros Hall. unfold _get_all_positions.
  rewrite all_positions_fold.
  pose proof (signed_sum_split _ symbol _ Hall) as Hsum.
  rewrite <- competition_holding_eq in Hsum.
  destruct (filter (fun t => CompetitionTrade.symbol t = symbol)
                   (filter (fun t => CompetitionTrade.participant_id t
                                     = CompetitionParticipant.id (participant db))
                           (competition_trades db))) as [|x xs] eqn:Hf.
  - rewrite decide_False; [reflexivity|].
    intros Hex. apply Exists_exists in Hex as (t & Hin & Hp & Hs).
    assert (Ht : t ∈ @nil CompetitionTrade.t); [|inversion Ht].
    rewrite <- Hf. apply list_elem_of_filter. split; [exact Hs|].
    apply list_elem_of_filter. split; assumption.
  - rewrite decide_True; [rewrite Hsum; reflexivity|].
    apply Exists_exists. exists x.
    assert (Hx : x ∈ x :: xs) by apply list_elem_of_here.
    rewrite <- Hf in Hx. apply list_elem_of_filter in Hx as [Hs Hx].
    apply list_elem_of_filter in Hx as [Hp Hx]. auto.
Qed.

(** After one share bought, the dictionary says one share of AAPL. *)
Lemma all_positions_agree_witness :
  dict_get
    (_get_all_positions 1
       (competition_trades
          (snd (execute_competition_trade (quote (Dec.mk 18998 (-2))) competitor
                                          (buy "AAPL" 1))))) "AAPL"
  = Some 1.
Proof.
  set (db := snd (execute_competition_trade (quote (Dec.mk 18998 (-2))) competitor
                                            (buy "AAPL" 1))).
  assert (Hall : Forall (fun t => CompetitionTrade.participant_id t
                                  = CompetitionParticipant.id (participant db) ->
                                  CompetitionTrade.trade_type t = "BUY"
                                  \/ CompetitionTrade.trade_type t = "SELL")
                        (competition_trades db)).
  { vm_compute. constructor; [|constructor]. intros _. left. reflexivity. }
  pose proof (all_positions_agree db "AAPL" Hall) as H.
  assert (Hid : CompetitionParticipant.id (participant db) = 1)
    by (vm_compute; reflexivity).
  rewrite Hid in H. rewrite H.
  rewrite decide_True.
  - vm_compute. reflexivity.
  - vm_compute. constructor. split; reflexivity.
Defined.

(** ** Refused competition orders *)

Lemma revaluation_succeeds (o : string -> option StockInfo.t) (held : list (string * Z)) :
  quotes_priced o ->
  forallb (fun kv : string * Z =>
             match o (fst kv) with
             | Some stock_data =>
                 match StockInfo.current_price stock_data with
                 | Some _ => true
                 | None => false
                 end
             | None => true
             end) held = true.
Proof.
  intros Hq. induction held as [|kv held IH]; [reflexivity|].
  cbn [forallb]. rewrite IH, andb_true_r.
  destruct (o (fst kv)) as [info|] eqn:Ho; [|reflexivity].
  destruct (Hq _ _ Ho) as [p ->]. reflexivity.
Qed.

(** X11. A competition order that is refused leaves the account as it was, as
    long as the oracle gives no quote without a price. A sell is refused for
    insufficient shares exactly when the participant holds fewer shares of
    the symbol than asked, a buy for insufficient cash exactly when the
    balance, as a float, is below the float total of value and brokerage. *)
Theorem competition_rejections
    (get_stock_info : string -> option StockInfo.t) (db db' : CompetitionDb)
    (trade_request : TradeRequest.t) (resp : CompetitionResponse.t) :
  execute_competition_trade get_stock_info db trade_request = (resp, db') ->
  (quotes_priced get_stock_info -> CompetitionResponse.success resp = false -> db' = db) /\
  (forall info p,
     get_stock_info (TradeRequest.symbol trade_request) = Some info ->
     StockInfo.current_price info = Some p ->
     PrimFloat.is_infinity (Float64.of_Z (TradeRequest.quantity trade_request)) = false ->
     let symbol := TradeRequest.symbol trade_request in
     let quantity := TradeRequest.quantity trade_request in
     let trade_value := PrimFloat.mul (Float64.of_dec p) (Float64.of_Z quantity) in
     let brokerage := PrimFloat.mul trade_value brokerage_rate_float in
     let total_cost := PrimFloat.add trade_value brokerage in
     let balance :=
       Float64.of_dec (CompetitionParticipant.current_balance (participant db)) in
     match TradeRequest.order_type trade_request with
     | BUY =>
         (CompetitionResponse.message resp = InsufficientCash total_cost balance
          <-> PrimFloat.ltb balance total_cost = true)
     | SELL =>
         (CompetitionResponse.message resp
          = InsufficientSharesNeed quantity (competition_holding db symbol)
          <-> competition_holding db symbol < quantity)
     end).
Proof.
  intros H. split.
  - intros Hq Hs. competition_cases; try reflexivity; try discriminate.
    all: match goal with
         | Hf : forallb _ _ = false |- _ =>
             rewrite (revaluation_succeeds _ _ Hq) in Hf; discriminate Hf
         end.
  - intros info p Ho Hp Hfin. cbv zeta. unfold competition_holding.
    competition_cases.
    all: cbn [CompetitionResponse.message].
    all: try match goal with
         | Hlt : (_ <? _) = true |- _ => apply Z.ltb_lt in Hlt
         | Hlt : (_ <? _) = false |- _ => apply Z.ltb_ge in Hlt
         end.
    all: split; intros Hx; try discriminate Hx; try reflexivity; try congruence;
         try lia.
Qed.

Lemma quote_priced (price : Dec.t) : quotes_priced (quote price).
Proof. intros symbol info [= <-]. eexists; reflexivity. Qed.

(** A sell of one share by a participant who holds none is refused, and
    the account is as it was. *)
Lemma competition_rejections_witness :
  CompetitionResponse.message
    (fst (execute_competition_trade (quote (Dec.mk 18998 (-2))) competitor
                                    (sell "AAPL" 1)))
  = InsufficientSharesNeed 1 0 /\
  snd (execute_competition_trade (quote (Dec.mk 18998 (-2))) competitor (sell "AAPL" 1))
  = competitor.
Proof.
  destruct (competition_rejections (quote (Dec.mk 18998 (-2))) competitor _
              (sell "AAPL" 1) _ (surjective_pairing _)) as [Hsame Hcase].
  assert (Hs : CompetitionResponse.success
                 (fst (execute_competition_trade (quote (Dec.mk 18998 (-2))) competitor
                                                 (sell "AAPL" 1))) = false)
    by (vm_compute; reflexivity).
  split.
  - assert (Hfin : PrimFloat.is_infinity (Float64.of_Z 1) = false)
      by (vm_compute; reflexivity).
    apply (Hcase _ (Dec.mk 18998 (-2)) eq_refl eq_refl Hfin).
    vm_compute. reflexivity.
  - apply Hsame; [apply quote_priced|exact Hs].
Defined.

(** * The stock cache *)

Lemma where_snoc {A} (p : A -> bool) (rows : list A) (x : A) :
  forall k, where_ p (rows ++ [x]) k
            = where_ p rows k ++ (if p x then [((k + length rows)%nat, x)] else []).
Proof.
  induction rows as [|y rows IH]; intros k; cbn [app where_ length].
  - rewrite Nat.add_0_r. destruct (p x); reflexivity.
  - rewrite IH. replace (S k + length rows)%nat with (k + S (length rows))%nat by lia.
    destruct (p y); reflexivity.
Qed.

Lemma where_insert_singleton {A} (p : A -> bool) (rows : list A) (x : A) :
  forall k j old,
    where_ p rows k = [(j, old)] -> p x = true ->
    where_ p (<[(j - k)%nat := x]> rows) k = [(j, x)].
Proof.
  induction rows as [|y rows IH]; intros k j old H Hx; [discriminate H|].
  cbn [where_] in H. destruct (p y) eqn:Hy.
  - injection H as <- <- Hrest. rewrite Nat.sub_diag. cbn. rewrite Hx, Hrest. reflexivity.
  - assert (Hin : (j, old) ∈ where_ p rows (S k)) by (rewrite H; apply list_elem_of_here).
    apply where_spec in Hin as (Hle & _).
    replace (j - k)%nat with (S (j - S k)) by lia. cbn. rewrite Hy.
    apply (IH (S k) j old H Hx).
Qed.

(** What an order does to the stock cache. *)
Lemma execute_trade_stocks o db pid req resp db' :
  execute_trade o db pid req = (resp, db') ->
  TradeResponse.success resp = true ->
  exists info p,
    o (TradeRequest.symbol req) = Some info /\
    StockInfo.current_price info = Some p /\
    match TradeRequest.order_type req with
    | BUY =>
        match where_ (fun s => String.eqb (Stock.symbol s)
                                          (upper (TradeRequest.symbol req)))
                     (stocks db) 0 with
        | [] => stocks db' = stocks db ++ [Stock.mk (upper (TradeRequest.symbol req))
                                                    (StockInfo.name info) p p]
        | [(i, st)] =>
            stocks db' = <[i := Stock.mk (Stock.symbol st) (StockInfo.name info) p
                                         (Stock.previous_close st)]> (stocks db)
        | _ => stocks db' = stocks db
        end
    | SELL => stocks db' = stocks db
    end.
Proof.
  intros H Hs. run_cases; try discriminate.
  all: eexists _, _; split; [closes|]; split; [closes|].
  all: repeat match goal with
              | |- context [let (_, _) := ?x in _] => destruct x
              end.
  all: reflexivity.
Qed.

(** X12. A buy leaves the quoted price in the stock cache. After a successful buy
    of a symbol the cache had at most one row for, the cache has exactly one
    row for the upper-cased symbol, with the executed price as its current
    price and the quoted name; a row that was there keeps its previous
    close and its place, a new row is added at the end with the price as
    previous close. A cache with several rows for the symbol is left as it
    is, and the buy goes through all the same. A sell never touches the
    cache. *)
Theorem buy_updates_stock_cache
    (get_stock_info : string -> option StockInfo.t) (db db' : Database)
    (portfolio_id : Z) (trade_request : TradeRequest.t) (resp : TradeResponse.t) :
  execute_trade get_stock_info db portfolio_id trade_request = (resp, db') ->
  TradeResponse.success resp = true ->
  exists info p,
    get_stock_info (TradeRequest.symbol trade_request) = Some info /\
    StockInfo.current_price info = Some p /\
    let symbol := upper (TradeRequest.symbol trade_request) in
    let cached (db : Database) :=
      where_ (fun s => String.eqb (Stock.symbol s) symbol) (stocks db) 0 in
    match TradeRequest.order_type trade_request with
    | BUY =>
        match cached db with
        | [] =>
            stocks db' = stocks db ++ [Stock.mk symbol (StockInfo.name info) p p] /\
            cached db' = [(length (stocks db),
                           Stock.mk symbol (StockInfo.name info) p p)]
        | [(i, st)] =>
            stocks db' = <[i := Stock.mk symbol (StockInfo.name info) p
                                         (Stock.previous_close st)]> (stocks db) /\
            cached db' = [(i, Stock.mk symbol (StockInfo.name info) p
                                       (Stock.previous_close st))]
        | _ => stocks db' = stocks db
        end
    | SELL => stocks db' = stocks db
    end.
Proof.
  intros H Hs.
  destruct (execute_trade_stocks _ _ _ _ _ _ H Hs) as (info & p & Ho & Hp & Hcase).
  exists info, p. split; [exact Ho|]. split; [exact Hp|]. cbv zeta.
  destruct (TradeRequest.order_type trade_request); [|exact Hcase].
  destruct (where_ _ (stocks db) 0) as [|[i st] [|row rows]] eqn:Hw.
  - split; [exact Hcase|]. rewrite Hcase, where_snoc, Hw.
    cbn [Stock.symbol]. rewrite String.eqb_refl. reflexivity.
  - pose proof (where_singleton _ _ _ _ Hw) as (_ & Hsym & _).
    apply String.eqb_eq in Hsym. rewrite Hsym in Hcase.
    split; [exact Hcase|]. rewrite Hcase.
    pose proof (where_insert_singleton _ (stocks db)
                  (Stock.mk (upper (TradeRequest.symbol trade_request))
                            (StockInfo.name info) p (Stock.previous_close st))
                  0%nat i st Hw) as Hins.
    rewrite Nat.sub_0_r in Hins. apply Hins. cbn [Stock.symbol]. apply String.eqb_refl.
  - exact Hcase.
Qed.

(** The first buy of AAPL at 150 puts AAPL at 150 in an empty cache. *)
Lemma buy_updates_stock_cache_witness :
  stocks (snd (execute_trade (quote (Dec.mk 150 0)) fresh_db 1 (buy "aapl" 10)))
  = [Stock.mk "AAPL" "Apple Inc." (Dec.mk 150 0) (Dec.mk 150 0)].
Proof.
  assert (Hs : TradeResponse.success
                 (fst (execute_trade (quote (Dec.mk 150 0)) fresh_db 1 (buy "aapl" 10)))
               = true) by (vm_compute; reflexivity).
  destruct (buy_updates_stock_cache (quote (Dec.mk 150 0)) fresh_db _ 1
              (buy "aapl" 10) _ (surjective_pairing _) Hs)
    as (info & p & Ho & Hp & Hcase).
  injection Ho as <-. injection Hp as <-.
  cbv zeta in Hcase. cbn in Hcase. destruct Hcase as [Hstocks _].
  exact Hstocks.
Defined.

(** * The executor behind the routes *)

Ltac unfold_robust :=
  cbv [RobustTradingService.execute_trade RobustTradingService.execute_trade_body
       RobustTradingService._execute_buy RobustTradingService._execute_sell
       decimal_of_str_float rollback
       execute_trade try_except execute_trade_body _execute_buy_order
       _execute_sell_order _update_stock_cache select_portfolio select_position
       select_stock scalar_one_or_none set_portfolio set_position add_position
       delete_position add_trade set_stock add_stock decimal_div decimal_of_str
       portfolio_rows position_rows
       mbind M_bind bind mret M_ret ret raise gets modify commit
       pending committed] in *;
  cbn [portfolios positions trades stocks] in *.

Ltac robust_cases :=
  unfold_robust;
  repeat (case_step; cbn [pending committed portfolios positions trades stocks
                          TradeResult.success TradeResult.trade_id
                          TradeResult.message] in * );
  simplify_eq.

(** An order the robust executor refuses or fails on is rolled back. *)
Lemma robust_failure_leaves_database live db pid req resp db' :
  RobustTradingService.execute_trade live db pid req = (resp, db') ->
  RobustResponse.success resp = false -> db' = db.
Proof.
  intros H Hs. robust_cases; try reflexivity; discriminate.
Qed.




(** X14. The robust executor is rolled back on every failure, and it stores the
    symbol as it is given: a position or ledger row it adds or rewrites
    carries the symbol of the request, letter case included. *)
Theorem robust_symbol_as_given
    (get_live_price : string -> option LiveData.t) (db db' : Database)
    (portfolio_id : Z) (trade_request : TradeRequest.t) (resp : RobustResponse.t) :
  RobustTradingService.execute_trade get_live_price db portfolio_id trade_request
  = (resp, db') ->
  (RobustResponse.success resp = false -> db' = db) /\
  (forall pos, pos ∈ positions db' ->
     pos ∈ positions db \/ Position.symbol pos = TradeRequest.symbol trade_request) /\
  (forall t, t ∈ trades db' ->
     t ∈ trades db \/ Trade.symbol t = TradeRequest.symbol trade_request) /\
  stocks db' = stocks db.
Proof.
  intros H. split; [intros Hs; eapply robust_failure_leaves_database; eassumption|].
  assert (Hrow : forall pid i old,
             where_ (fun p => (Position.portfolio_id p =? pid)
                              && String.eqb (Position.symbol p)
                                            (TradeRequest.symbol trade_request))
                    (positions db) 0 = [(i, old)] ->
             Position.symbol old = TradeRequest.symbol trade_request).
  { intros pid i old Hr. apply where_singleton in Hr as (_ & Hp & _).
    apply andb_true_iff in Hp as [_ Hp]. apply String.eqb_eq in Hp. exact Hp. }
  robust_cases.
  all: cbn [positions trades stocks].
  all: split; [|split; [|reflexivity]].
  all: try (intros x Hin; left; exact Hin).
  all: try (intros x Hin; apply elem_of_app in Hin as [Hin|Hin]; [left; exact Hin|];
            apply list_elem_of_singleton in Hin as ->; right; reflexivity).
  all: try (intros x Hin; apply insert_elem_of in Hin as [Hin| ->]; [left; exact Hin|];
            right; cbn [Position.symbol]; eapply Hrow; eassumption).
  all: intros x Hin; apply delete_elem_of in Hin;
       apply insert_elem_of in Hin as [Hin| ->]; [left; exact Hin|];
       right; cbn [Position.symbol]; eapply Hrow; eassumption.
Qed.

(** Bought as "aapl", held as "aapl". *)
Lemma robust_symbol_as_given_witness :
  map Position.symbol
      (positions (snd (RobustTradingService.execute_trade (live_quote 150%float)
                         fresh_db 1 (buy "aapl" 10))))
  = ["aapl"].
Proof.
  destruct (robust_symbol_as_given (live_quote 150%float) fresh_db _ 1 (buy "aapl" 10) _
              (surjective_pairing _)) as (_ & Hpos & _).
  assert (Hlen : exists pos,
             positions (snd (RobustTradingService.execute_trade (live_quote 150%float)
                               fresh_db 1 (buy "aapl" 10))) = [pos])
    by (vm_compute; eexists; reflexivity).
  destruct Hlen as [pos Hp]. rewrite Hp in *.
  destruct (Hpos pos (list_elem_of_here _ _)) as [Hin|Hsym].
  - inversion Hin.
  - cbn. rewrite Hsym. reflexivity.
Defined.

(** ** The two valuations *)

Lemma float_zero_of_decimal : Float64.of_Z 0 = Float64.of_dec Dec.zero.
Proof. vm_compute. reflexivity. Qed.

(** The loop of [get_portfolio_data] is the loop of
    [calculate_portfolio_value] under the oracle built on the live quotes. *)
Lemma live_positions_agree (live : string -> option LiveData.t)
    (rows : list Position.t) :
  quotes_finite live ->
  forall acc tot s,
    RobustTradingService.live_positions live rows acc tot s
    = value_positions (robust_get_stock_info live) rows acc tot s.
Proof.
  intros Hfin. induction rows as [|pos rows IH]; intros acc tot s; [reflexivity|].
  cbn [RobustTradingService.live_positions value_positions].
  unfold robust_get_stock_info at 1.
  destruct (live (Position.symbol pos)) as [ld|] eqn:Hl; [|apply IH].
  destruct (Hfin _ _ Hl) as [d Hd]. rewrite Hd.
  cbn [StockInfo.current_price].
  unfold decimal_of_str_float. rewrite Hd.
  unfold mbind, M_bind, bind, mret, M_ret, decimal_of_str, decimal_div, ret, raise.
  destruct (Dec.gtb _ Dec.zero).
  - destruct (Dec.div _ _); [apply IH|reflexivity].
  - rewrite float_zero_of_decimal. apply IH.
Qed.

(** X15. [RobustTradingService.get_portfolio_data] and
    [PortfolioService.calculate_portfolio_value], the second with the oracle
    that [stocks/robust_services.py] builds on the same live quotes, give
    the same figures for a portfolio whose positions all hold more than zero
    shares: both fail or both answer, with the same cash balance, stock
    value, total value and positions. *)
Theorem portfolio_data_agrees_with_valuation
    (get_live_price : string -> option LiveData.t) (db : Database) (portfolio_id : Z) :
  quotes_finite get_live_price ->
  Forall (fun pos => Position.portfolio_id pos = portfolio_id -> 0 < Position.quantity pos)
         (positions db) ->
  match RobustTradingService.get_portfolio_data get_live_price db portfolio_id,
        calculate_portfolio_value (robust_get_stock_info get_live_price) db portfolio_id
  with
  | Some d, Some v =>
      PortfolioData.portfolio_id d = PortfolioValue.portfolio_id v /\
      PortfolioData.cash_balance d = PortfolioValue.cash_balance v /\
      PortfolioData.total_market_value d = PortfolioValue.stock_value v /\
      PortfolioData.total_portfolio_value d = PortfolioValue.total_value v /\
      PortfolioData.positions d = PortfolioValue.positions v
  | None, None => True
  | _, _ => False
  end.
Proof.
  intros Hfin Hpos.
  assert (Hrows : filter (fun p => Position.portfolio_id p = portfolio_id) (positions db)
                  = held_positions db portfolio_id).
  { unfold held_positions. apply filter_ext_in. intros pos Hin.
    rewrite Forall_forall in Hpos. specialize (Hpos pos Hin). tauto. }
  unfold RobustTradingService.get_portfolio_data, calculate_portfolio_value, run,
    try_except, calculate_portfolio_value_body, select_portfolio.
  unfold mbind, M_bind, bind, gets. cbn [pending]. cbv beta.
  destruct (portfolio_rows portfolio_id db) as [|[ref pf] [|row rows]] eqn:Hsel;
    cbn [scalar_one_or_none ret raise pending]; try exact I.
  apply where_singleton in Hsel as (_ & Hid & _). apply Z.eqb_eq in Hid.
  rewrite Hrows, (live_positions_agree _ _ Hfin).
  destruct (value_positions _ _ _ _ _) as [[pv tot] s|e s]; [|exact I].
  cbn. rewrite Hid. repeat split; reflexivity.
Qed.

(** A portfolio that bought ten AAPL, valued at a live quote of 160.0 by
    both: a stock value of 1600. *)
Lemma portfolio_data_agrees_with_valuation_witness :
  option_map PortfolioData.total_market_value
    (RobustTradingService.get_portfolio_data (live_quote 160%float)
       (snd (execute_trade (quote (Dec.mk 150 0)) fresh_db 1 (buy "AAPL" 10))) 1)
  = option_map PortfolioValue.stock_value
      (calculate_portfolio_value (robust_get_stock_info (live_quote 160%float))
         (snd (execute_trade (quote (Dec.mk 150 0)) fresh_db 1 (buy "AAPL" 10))) 1).
Proof.
  assert (Hfin : quotes_finite (live_quote 160%float)).
  { intros symbol ld [= <-]. eexists. vm_compute. reflexivity. }
  set (db := snd (execute_trade (quote (Dec.mk 150 0)) fresh_db 1 (buy "AAPL" 10))).
  assert (Hpos : Forall (fun pos => Position.portfolio_id pos = 1 ->
                                    0 < Position.quantity pos) (positions db)).
  { vm_compute. constructor; [|constructor]. intros _. reflexivity. }
  pose proof (portfolio_data_agrees_with_valuation (live_quote 160%float) db 1 Hfin Hpos)
    as H.
  destruct (RobustTradingService.get_portfolio_data (live_quote 160%float) db 1) as [d|];
    destruct (calculate_portfolio_value (robust_get_stock_info (live_quote 160%float))
                db 1) as [v|]; try contradiction.
  - destruct H as (_ & _ & Hm & _). cbn. rewrite Hm. reflexivity.
  - reflexivity.
Defined.

(** * One position row per portfolio and symbol *)

Lemma where_length {A} (p : A -> bool) (rows : list A) :
  forall k, length (where_ p rows k) = length (filter (fun x => p x = true) rows).
Proof.
  induction rows as [|x rows IH]; intros k; [reflexivity|].
  cbn [where_]. destruct (p x) eqn:Hp.
  - rewrite filter_cons_True by exact Hp. cbn [length]. rewrite IH. reflexivity.
  - rewrite filter_cons_False by (rewrite Hp; discriminate). apply IH.
Qed.

Lemma filter_insert_length {A} (P : A -> Prop) `{!forall x, Decision (P x)}
    (l : list A) (i : nat) (old x : A) :
  l !! i = Some old -> (P x <-> P old) ->
  length (filter P (<[i := x]> l)) = length (filter P l).
Proof.
  revert i. induction l as [|y l IH]; intros [|i] Hi Hiff; try discriminate Hi.
  - cbn in Hi. injection Hi as ->. cbn [list_insert].
    change (<[0%nat := x]> (old :: l)) with (x :: l).
    destruct (decide (P old)) as [Hp|Hp].
    + rewrite !filter_cons_True by tauto. reflexivity.
    + rewrite !filter_cons_False by tauto. reflexivity.
  - cbn in Hi. change (<[S i := x]> (y :: l)) with (y :: <[i := x]> l).
    rewrite !filter_cons. destruct (decide (P y)); cbn [length];
      rewrite (IH i Hi Hiff); reflexivity.
Qed.

Lemma filter_delete_length {A} (P : A -> Prop) `{!forall x, Decision (P x)}
    (l : list A) (i : nat) :
  (length (filter P (delete i l)) <= length (filter P l))%nat.
Proof.
  revert i. induction l as [|y l IH]; intros [|i].
  - apply le_n.
  - apply le_n.
  - change (delete 0%nat (y :: l)) with l.
    rewrite filter_cons. destruct (decide (P y)); cbn [length]; lia.
  - change (delete (S i) (y :: l)) with (y :: delete i l).
    rewrite !filter_cons. specialize (IH i).
    destruct (decide (P y)); cbn [length]; lia.
Qed.

(** One order keeps the position rows of every portfolio and symbol at one
    at most. *)
Lemma trade_step_unique o db pid req resp db' :
  execute_trade o db pid req = (resp, db') ->
  (forall portfolio_id symbol, (length (position_rows portfolio_id symbol db) <= 1)%nat) ->
  forall portfolio_id symbol, (length (position_rows portfolio_id symbol db') <= 1)%nat.
Proof.
  intros H Huniq pid' sym'.
  destruct (TradeResponse.success resp) eqn:Hs;
    [|rewrite (failure_leaves_database _ _ _ _ _ _ H Hs); apply Huniq].
  destruct (execute_trade_success _ _ _ _ _ _ H Hs)
    as (info & p & ref & pf & _ & _ & _ & _ & Hcase).
  cbv zeta in Hcase. specialize (Huniq pid' sym') as Hold.
  unfold position_rows in *. rewrite where_length in *.
  set (P := fun x : Position.t =>
              (Position.portfolio_id x =? pid') && String.eqb (Position.symbol x) sym'
              = true) in *.
  assert (Hins : forall i old x,
             positions db !! i = Some old ->
             Position.portfolio_id x = Position.portfolio_id old ->
             Position.symbol x = Position.symbol old ->
             length (filter P (<[i := x]> (positions db))) = length (filter P (positions db))).
  { intros i old x Hi Hp Hsym. apply (filter_insert_length P _ i old x Hi).
    unfold P. rewrite Hp, Hsym. reflexivity. }
  destruct (TradeRequest.order_type req).
  - destruct Hcase as (_ & _ & _ & [[Hnone Hpos]|(i & old & avg & Hr & _ & Hpos)]).
    + rewrite Hpos, filter_app, length_app.
      rewrite filter_singleton by exact [].
      destruct (decide (P _)) as [Hp|Hp]; [|cbn [length]; lia].
      unfold P in Hp. cbn [Position.portfolio_id Position.symbol] in Hp.
      apply andb_true_iff in Hp as [Hpid Hsym].
      apply Z.eqb_eq in Hpid. apply String.eqb_eq in Hsym. subst pid' sym'.
      specialize (Huniq (Portfolio.id pf) (upper (TradeRequest.symbol req))).
      rewrite Hnone in Huniq.
      pose proof (where_length
                    (fun x => (Position.portfolio_id x =? Portfolio.id pf)
                              && String.eqb (Position.symbol x)
                                            (upper (TradeRequest.symbol req)))
                    (positions db) 0) as Hlen.
      rewrite Hnone in Hlen. cbn [length] in Hlen.
      fold P in Hlen. rewrite <- Hlen. cbn [length]. lia.
    + apply where_singleton in Hr as (Hi & _).
      rewrite Hpos. erewrite Hins; [exact Hold|exact Hi|reflexivity|reflexivity].
  - destruct Hcase as (i & old & Hr & _ & _ & _ & _ & Hpos).
    apply where_singleton in Hr as (Hi & _). rewrite Hpos.
    destruct (Position.quantity old - TradeRequest.quantity req =? 0).
    + pose proof (filter_delete_length P (positions db) i). lia.
    + erewrite Hins; [exact Hold|exact Hi|reflexivity|reflexivity].
Qed.

(** X16. The executor never makes a second position row for a portfolio and a
    symbol: from a database with one row at most for each, every run of
    orders leads to such a database, so the position lookup of an order
    never finds several rows. *)
Theorem positions_stay_unique (db0 db : Database) :
  reachable db0 db ->
  (forall portfolio_id symbol,
     (length (position_rows portfolio_id symbol db0) <= 1)%nat) ->
  forall portfolio_id symbol,
    (length (position_rows portfolio_id symbol db) <= 1)%nat.
Proof.
  intros Hreach H0. induction Hreach as [|o db pid req Hreach IH Hq Hv]; [exact H0|].
  destruct (execute_trade o db pid req) as [resp db'] eqn:H. cbn [snd].
  eapply trade_step_unique; eassumption.
Qed.

(** Two buys of the same symbol, in different letter case, from a fresh
    portfolio: one position row. *)
Lemma positions_stay_unique_witness :
  (length (position_rows 1 "AAPL"
             (snd (execute_trade (quote (Dec.mk 200 0))
                     (snd (execute_trade (quote (Dec.mk 100 0)) fresh_db 1
                                         (buy "AAPL" 10)))
                     1 (buy "aapl" 10)))) <= 1)%nat.
Proof.
  assert (Hq : forall price, 0 <= Dec.coef price -> quotes_nonneg (quote price))
    by (intros price; apply quote_nonneg).
  assert (Hv : forall s, TradeRequest.valid (buy s 10))
    by (intros s; unfold TradeRequest.valid; cbn; lia).
  apply (positions_stay_unique fresh_db).
  - apply reachable_trade; [apply reachable_trade; [apply reachable_init| |]| |];
      first [apply Hv | apply Hq; cbn; lia].
  - intros pid sym. cbn. lia.
Defined.

(** * The count of profitable trades *)

Lemma profitable_trades_count (all_trades : list Trade.t) :
  profitable_trades all_trades
  = Z.of_nat (length (filter (fun t => profitable_sell all_trades t = true) all_trades)).
Proof.
  unfold profitable_trades.
  destruct (symbol_trades_groups all_trades) as (ks & Hnd & Hcover & ->).
  rewrite fold_left_sum, map_map. cbn [snd]. rewrite Z.add_0_l.
  rewrite <- (group_count _ ks all_trades Hnd Hcover).
  f_equal. apply map_ext. intros k. apply profitable_of_group.
Qed.

Lemma filter_length_le {A} (P Q : A -> Prop)
    `{!forall x, Decision (P x), !forall x, Decision (Q x)} (l : list A) :
  (forall x, P x -> Q x) -> (length (filter P l) <= length (filter Q l))%nat.
Proof.
  intros Himp. induction l as [|x l IH]; [apply le_n|].
  rewrite !filter_cons.
  destruct (decide (P x)) as [Hp|Hp]; destruct (decide (Q x)) as [Hq|Hq];
    cbn [length]; try lia.
  exfalso. apply Hq, Himp, Hp.
Qed.

(** X17. The metrics never count more profitable trades than there are sells:
    [profitable_trades] lies between 0 and the number of sell rows of the
    ledger, which is at most [total_trades]; and a ledger without a sell, or
    without a buy, has a win rate of 0.0. *)
Theorem profitable_trades_bounded (all_trades : list Trade.t) :
  0 <= profitable_trades all_trades /\
  profitable_trades all_trades
  <= Z.of_nat (length (filter (fun t => is_sell t = true) all_trades)) /\
  Z.of_nat (length (filter (fun t => is_sell t = true) all_trades))
  <= Z.of_nat (length all_trades) /\
  ((forall t, t ∈ all_trades -> is_sell t = false) \/
   (forall t, t ∈ all_trades -> is_buy t = false) ->
   profitable_trades all_trades = 0 /\ win_rate all_trades = 0%float).
Proof.
  rewrite profitable_trades_count.
  split; [lia|]. split; [|split].
  - apply Nat2Z.inj_le. apply filter_length_le.
    intros t Ht. unfold profitable_sell in Ht. apply andb_true_iff in Ht as [Ht _].
    exact Ht.
  - apply Nat2Z.inj_le. apply length_filter.
  - intros Hnone.
    assert (Hzero : filter (fun t => profitable_sell all_trades t = true) all_trades = []).
    { destruct (filter _ all_trades) as [|x xs] eqn:E; [reflexivity|exfalso].
      assert (Hx : x ∈ filter (fun t => profitable_sell all_trades t = true) all_trades)
        by (rewrite E; apply list_elem_of_here).
      apply list_elem_of_filter in Hx as [Hp Hx]. unfold profitable_sell in Hp.
      apply andb_true_iff in Hp as [Hsell Hbuys].
      destruct Hnone as [Hnone|Hnone].
      - rewrite (Hnone x Hx) in Hsell. discriminate Hsell.
      - destruct (buys_of (Trade.symbol x) all_trades) as [|b bs] eqn:Hb;
          [discriminate Hbuys|].
        assert (Hbin : b ∈ buys_of (Trade.symbol x) all_trades)
          by (rewrite Hb; apply list_elem_of_here).
        apply list_elem_of_filter in Hbin as [[Hbuy _] Hbin].
        rewrite (Hnone b Hbin) in Hbuy. discriminate Hbuy. }
    rewrite Hzero. split; [reflexivity|].
    unfold win_rate. destruct all_trades as [|t l]; [reflexivity|].
    rewrite profitable_trades_count, Hzero.
    change (Z.of_nat (@length Trade.t [])) with 0.
    destruct (0 <? Z.of_nat (length (t :: l))) eqn:Hlen; [|reflexivity].
    apply Z.ltb_lt in Hlen.
    assert (Hdiv : forall n, 0 < n -> Float64.div_int 0 n = 0%float).
    { intros n Hn. unfold Float64.div_int.
      destruct (n <? 0) eqn:Hneg; [apply Z.ltb_lt in Hneg; lia|].
      unfold Float64.of_signed_ratio. reflexivity. }
    rewrite (Hdiv _ Hlen). vm_compute. reflexivity.
Qed.

(** * What the robust executor keeps *)

(** What an executed order of the robust executor does to the database. *)
Lemma robust_execute_trade_success live db pid req resp db' :
  RobustTradingService.execute_trade live db pid req = (resp, db') ->
  RobustResponse.success resp = true ->
  exists live_data p ref pf,
    live (TradeRequest.symbol req) = Some live_data /\
    Float64.to_dec (LiveData.current_price live_data) = Some p /\
    portfolio_rows pid db = [(ref, pf)] /\
    let symbol := TradeRequest.symbol req in
    let q := TradeRequest.quantity req in
    let gross := Dec.mul p (Dec.of_Z q) in
    let fee := Dec.mul gross brokerage_rate in
    let cash := Portfolio.cash_balance pf in
    stocks db' = stocks db /\
    match TradeRequest.order_type req with
    | BUY =>
        Dec.ltb cash (Dec.add gross fee) = false /\
        portfolios db' =
          <[ref := Portfolio.mk (Portfolio.id pf) (Dec.sub cash (Dec.add gross fee))]>
            (portfolios db) /\
        (exists k, trades db' =
           trades db ++ [Trade.mk k (Portfolio.id pf) symbol "buy" q p gross fee COMPLETED]) /\
        ((position_rows (Portfolio.id pf) symbol db = [] /\
          positions db' = positions db ++ [Position.mk (Portfolio.id pf) symbol q p])
         \/
         (exists i pos average_cost,
            position_rows (Portfolio.id pf) symbol db = [(i, pos)] /\
            Dec.div (Dec.add (Dec.mul (Position.average_cost pos)
                                      (Dec.of_Z (Position.quantity pos))) gross)
                    (Dec.of_Z (Position.quantity pos + q)) = Some average_cost /\
            positions db' =
              <[i := Position.mk (Position.portfolio_id pos) (Position.symbol pos)
                                 (Position.quantity pos + q) average_cost]>
                (positions db)))
    | SELL =>
        exists i pos,
          position_rows (Portfolio.id pf) symbol db = [(i, pos)] /\
          q <= Position.quantity pos /\
          portfolios db' =
            <[ref := Portfolio.mk (Portfolio.id pf) (Dec.add cash (Dec.sub gross fee))]>
              (portfolios db) /\
          (exists k, trades db' =
             trades db ++ [Trade.mk k (Portfolio.id pf) symbol "sell" q p gross fee COMPLETED]) /\
          positions db' =
            (if Position.quantity pos - q =? 0 then delete i (positions db)
             else <[i := Position.mk (Position.portfolio_id pos) (Position.symbol pos)
                                     (Position.quantity pos - q)
                                     (Position.average_cost pos)]> (positions db))
    end.
Proof.
  intros H Hs. robust_cases; try discriminate.
  all: eexists _, _, _, _; split; [closes|]; split; [closes|]; split; [closes|];
       cbn [portfolios positions trades stocks]; split; [reflexivity|].
  all: first
    [ split; [assumption|]; split; [reflexivity|]; split; [eexists; reflexivity|];
      first [ left; split; closes
            | right; eexists _, _, _; split; [closes|]; split; closes ]
    | eexists _, _; split; [closes|]; split; [lia|]; split; [reflexivity|];
      split; [eexists; reflexivity|];
      try match goal with Hz : (_ =? 0) = _ |- _ => rewrite Hz end;
      first [ apply delete_insert_same | reflexivity ] ].
Qed.

Lemma robust_step_invariants live db pid req resp db' :
  RobustTradingService.execute_trade live db pid req = (resp, db') ->
  live_quotes_nonneg live -> TradeRequest.valid req ->
  balances_nonneg db -> quantities_positive db ->
  balances_nonneg db' /\ quantities_positive db'.
Proof.
  intros H Ho Hv Hb Hq.
  destruct (RobustResponse.success resp) eqn:Hs;
    [|rewrite (robust_failure_leaves_database _ _ _ _ _ _ H Hs); split; assumption].
  destruct (robust_execute_trade_success _ _ _ _ _ _ H Hs)
    as (ld & p & ref & pf & Hlive & Hp & Hrows & _ & Hcase).
  cbv zeta in Hcase. unfold balances_nonneg, quantities_positive in *.
  unfold TradeRequest.valid in Hv. pose proof (Ho _ _ _ Hlive Hp) as Hprice.
  apply where_singleton in Hrows as (Hpf & _ & _).
  pose proof (proj1 (Forall_lookup _ _) Hb _ _ Hpf) as Hcash. cbn beta in Hcash.
  destruct (TradeRequest.order_type req).
  - destruct Hcase as (Hlt & -> & _ & Hpos). split.
    + apply Forall_insert; [exact Hb|]. cbn [Portfolio.cash_balance].
      apply value_nonneg, sub_nonneg, ltb_false_value. exact Hlt.
    + destruct Hpos as [[_ ->]|(i & pos & avg & Hrow & _ & ->)].
      * apply Forall_app. split; [exact Hq|]. constructor; [|constructor].
        cbn [Position.quantity]. lia.
      * apply where_singleton in Hrow as (Hl & _ & _).
        pose proof (proj1 (Forall_lookup _ _) Hq _ _ Hl) as Hold. cbn beta in Hold.
        apply Forall_insert; [exact Hq|]. cbn [Position.quantity]. lia.
  - destruct Hcase as (i & pos & Hrow & Hle & -> & _ & ->). split.
    + apply Forall_insert; [exact Hb|]. cbn [Portfolio.cash_balance].
      apply value_nonneg, add_nonneg; [apply value_nonneg; exact Hcash|].
      apply sub_nonneg, fees_le, mul_nonneg; cbn [Dec.of_Z Dec.coef]; lia.
    + destruct (Z.eqb_spec (Position.quantity pos - TradeRequest.quantity req) 0).
      * apply Forall_delete. exact Hq.
      * apply Forall_insert; [exact Hq|]. cbn [Position.quantity]. lia.
Qed.

Lemma robust_step_unique live db pid req resp db' :
  RobustTradingService.execute_trade live db pid req = (resp, db') ->
  (forall portfolio_id symbol, (length (position_rows portfolio_id symbol db) <= 1)%nat) ->
  forall portfolio_id symbol, (length (position_rows portfolio_id symbol db') <= 1)%nat.
Proof.
  intros H Huniq pid' sym'.
  destruct (RobustResponse.success resp) eqn:Hs;
    [|rewrite (robust_failure_leaves_database _ _ _ _ _ _ H Hs); apply Huniq].
  destruct (robust_execute_trade_success _ _ _ _ _ _ H Hs)
    as (ld & p & ref & pf & _ & _ & _ & _ & Hcase).
  cbv zeta in Hcase. specialize (Huniq pid' sym') as Hold.
  unfold position_rows in *. rewrite where_length in *.
  set (P := fun x : Position.t =>
              (Position.portfolio_id x =? pid') && String.eqb (Position.symbol x) sym'
              = true) in *.
  assert (Hins : forall i old x,
             positions db !! i = Some old ->
             Position.portfolio_id x = Position.portfolio_id old ->
             Position.symbol x = Position.symbol old ->
             length (filter P (<[i := x]> (positions db))) = length (filter P (positions db))).
  { intros i old x Hi Hp Hsym. apply (filter_insert_length P _ i old x Hi).
    unfold P. rewrite Hp, Hsym. reflexivity. }
  destruct (TradeRequest.order_type req).
  - destruct Hcase as (_ & _ & _ & [[Hnone Hpos]|(i & old & avg & Hr & _ & Hpos)]).
    + rewrite Hpos, filter_app, length_app.
      rewrite filter_singleton by exact [].
      destruct (decide (P _)) as [Hp|Hp]; [|cbn [length]; lia].
      unfold P in Hp. cbn [Position.portfolio_id Position.symbol] in Hp.
      apply andb_true_iff in Hp as [Hpid Hsym].
      apply Z.eqb_eq in Hpid. apply String.eqb_eq in Hsym. subst pid' sym'.
      pose proof (where_length
                    (fun x => (Position.portfolio_id x =? Portfolio.id pf)
                              && String.eqb (Position.symbol x) (TradeRequest.symbol req))
                    (positions db) 0) as Hlen.
      rewrite Hnone in Hlen. cbn [length] in Hlen.
      fold P in Hlen. rewrite <- Hlen. cbn [length]. lia.
    + apply where_singleton in Hr as (Hi & _).
      rewrite Hpos. erewrite Hins; [exact Hold|exact Hi|reflexivity|reflexivity].
  - destruct Hcase as (i & old & Hr & _ & _ & _ & Hpos).
    apply where_singleton in Hr as (Hi & _). rewrite Hpos.
    destruct (Position.quantity old - TradeRequest.quantity req =? 0).
    + pose proof (filter_delete_length P (positions db) i). lia.
    + erewrite Hins; [exact Hold|exact Hi|reflexivity|reflexivity].
Qed.

(** X18. The executor behind the routes keeps the balances and the positions in
    range: from a database whose cash balances are not negative, whose
    positions all hold more than zero shares and which has one position row
    at most for a portfolio and a symbol, validated orders at quotes that
    are finite and not negative lead only to such databases. *)
Theorem robust_invariants (db0 db : Database) :
  robust_reachable db0 db ->
  balances_nonneg db0 -> quantities_positive db0 ->
  (forall portfolio_id symbol,
     (length (position_rows portfolio_id symbol db0) <= 1)%nat) ->
  balances_nonneg db /\ quantities_positive db /\
  (forall portfolio_id symbol,
     (length (position_rows portfolio_id symbol db) <= 1)%nat).
Proof.
  intros Hreach Hb Hq Hu.
  induction Hreach as [|live db pid req Hreach IH Hfin Hlive Hv]; [auto|].
  destruct IH as (Hb' & Hq' & Hu').
  destruct (RobustTradingService.execute_trade live db pid req) as [resp db'] eqn:H.
  cbn [snd].
  destruct (robust_step_invariants _ _ _ _ _ _ H Hlive Hv Hb' Hq') as [Hb2 Hq2].
  split; [exact Hb2|]. split; [exact Hq2|].
  eapply robust_step_unique; eassumption.
Qed.

(** Ten AAPL bought at a live quote of 150.0 from a fresh portfolio: the
    cash left is not negative. *)
Lemma robust_invariants_witness :
  balances_nonneg
    (snd (RobustTradingService.execute_trade (live_quote 150%float) fresh_db 1
                                             (buy "AAPL" 10))).
Proof.
  assert (Hlive : live_quotes_nonneg (live_quote 150%float)).
  { intros symbol ld d [= <-] Hd. cbn [LiveData.current_price] in Hd.
    assert (Hdec : Float64.to_dec 150%float = Some (Dec.mk 1500 (-1)))
      by (vm_compute; reflexivity).
    rewrite Hdec in Hd. injection Hd as <-. cbn. lia. }
  assert (Hfin : quotes_finite (live_quote 150%float)).
  { intros symbol ld [= <-]. eexists. vm_compute. reflexivity. }
  assert (Hv : TradeRequest.valid (buy "AAPL" 10))
    by (unfold TradeRequest.valid; cbn; lia).
  refine (proj1 (robust_invariants fresh_db _
                   (robust_reachable_trade fresh_db (live_quote 150%float) fresh_db 1
                      (buy "AAPL" 10) (robust_reachable_init fresh_db) Hfin Hlive Hv)
                   _ _ _)).
  - unfold balances_nonneg. cbn. constructor; [|constructor].
    apply value_nonneg. cbn. lia.
  - unfold quantities_positive. cbn. constructor.
  - intros pid sym. cbn. lia.
Defined.




(** * What an executed competition order does *)


